(** * @sabl/txn: the transaction runner and the change sets

    A shallow embedding of [src/index.ts] (with the interfaces of
    [src/types.ts]) and the properties of its transaction-lifecycle engine:
    [TxnRunnerImpl], [ChangeSetImpl] and [TxnChangeSetImpl].

    Modelling conventions.
    - Every [async] function awaits each step before the next one, so a call
      is a sequential computation: a function from the state before the call
      to the state after it and a completion (normal, or a thrown value).
    - [S] is the program state outside the object under study: whatever the
      callbacks, the transactions and the transaction sources read and
      write.  An object's own fields are threaded next to it, so a method of
      [ChangeSetImpl] runs in the state [ChangeSetImpl * S].
    - A deferred callback is a computation on [S]: it acts on the world
      outside the change set it is registered on.  The callbacks of a set
      run only inside its [commit] and [rollback] loops, where the set is
      already complete and its window shut; a callback that called back
      into the set there would be turned down by the status guard with the
      set unchanged ([calls_during_a_loop_rejected]), so nothing of the set
      is lost by leaving it out of what a callback can reach.
    - [deferTxn] is the one method without the status guard, and the
      transactional loop of [TxnChangeSetImpl.commit] iterates the array
      [#commitTxn] itself.  A transactional action is therefore a callback
      together with the callbacks it gives to [deferTxn] of its own set
      while it runs ([TxnAction]), and the loop is a loop over the live
      array ([run_live]): it reaches the entries added while it runs.
      Once that loop is over nothing reads the array again.
    - [Maybe<X>] is [option X]; [x == null] is [x = None].
    - Where a runner makes the change sets itself ([changeSet()],
      [txnChangeSet(accessor)]), they are held by reference in a store,
      and the context carrier of [@sabl/context] is a parameter. *)

From Stdlib Require Import String List Bool Arith Lia.
Import ListNotations.
Local Open Scope string_scope.
Local Open Scope list_scope.

Set Implicit Arguments.

(** ** JavaScript values that can be thrown *)

(** The values the model throws and catches: [null], [undefined], booleans,
    strings and [Error] objects ([name], [message], and [cause], which reads
    [undefined] when there is none). *)
Inductive JsVal : Type :=
| JNull
| JUndefined
| JBool (b : bool)
| JString (s : string)
| JError (name message : string) (cause : JsVal).

(** [e != null] (loose inequality: false on [null] and [undefined] only). *)
Definition not_nullish (e : JsVal) : bool :=
  match e with
  | JNull | JUndefined => false
  | _ => true
  end.

(** [e instanceof Error] *)
Definition instanceof_Error (e : JsVal) : bool :=
  match e with
  | JError _ _ _ => true
  | _ => false
  end.

(** [String(e)]; on an [Error] this is [Error.prototype.toString]. *)
Definition ToString (e : JsVal) : string :=
  match e with
  | JNull => "null"
  | JUndefined => "undefined"
  | JBool true => "true"
  | JBool false => "false"
  | JString s => s
  | JError name msg _ =>
      if String.eqb name "" then msg
      else if String.eqb msg "" then name
      else (name ++ ": " ++ msg)%string
  end.

(** [new Error(message)] and [new Error(message, { cause })] *)
Definition new_Error (message : string) (cause : JsVal) : JsVal :=
  JError "Error" message cause.

(** The errors of the engine: plain [Error]s told apart by their message. *)
Definition ConfigurationError : JsVal :=
  new_Error "No transactable source present on context" JUndefined.

Definition MissingCallbackError : JsVal :=
  new_Error "Missing callback function" JUndefined.

Definition NestedTransactionError : JsVal :=
  new_Error
    "There is already an open transaction, and it does not support nested transactions"
    JUndefined.

Definition AlreadyCompletedError : JsVal :=
  new_Error "Change set is already committed or rolled back" JUndefined.

(** The error built in the [catch] block of [TxnRunnerImpl.run]. *)
Definition TransactionFailed (e : JsVal) : JsVal :=
  let errSuffix := if not_nullish e then (": " ++ ToString e)%string else "" in
  new_Error ("Transaction failed" ++ errSuffix)%string
            (if instanceof_Error e then e else JUndefined).

(** ** Completions and sequential computations *)

Inductive Completion (A : Type) : Type :=
| Normal (a : A)
| Throw (e : JsVal).
Arguments Normal {A} a.
Arguments Throw {A} e.

(** The local [ok] of the [try { ...; ok = true } finally { ... }] blocks. *)
Definition is_ok {A} (c : Completion A) : bool :=
  match c with
  | Normal _ => true
  | Throw _ => false
  end.

(** A computation on the state [St] that completes with an [A]. *)
Definition M (St A : Type) : Type := St -> St * Completion A.

Definition ret {St A} (a : A) : M St A := fun s => (s, Normal a).

Definition throw {St A} (e : JsVal) : M St A := fun s => (s, Throw e).

Definition bind {St A B} (m : M St A) (k : A -> M St B) : M St B :=
  fun s =>
    match m s with
    | (s1, Normal a) => k a s1
    | (s1, Throw e) => (s1, Throw e)
    end.

(** [try { body } catch (e) { handler(e) }] *)
Definition try_catch {St A} (body : M St A) (handler : JsVal -> M St A)
  : M St A :=
  fun s =>
    match body s with
    | (s1, Normal a) => (s1, Normal a)
    | (s1, Throw e) => handler e s1
    end.

(** [try { body } finally { fin }]: [fin] always runs, and sees how [body]
    completed; the completion of [body] is kept unless [fin] throws. *)
Definition try_finally {St A} (body : M St A)
           (fin : Completion A -> M St unit) : M St A :=
  fun s =>
    let '(s1, c) := body s in
    match fin c s1 with
    | (s2, Normal _) => (s2, c)
    | (s2, Throw e) => (s2, Throw e)
    end.

(** A computation on the outside state, run from inside a method. *)
Definition lift {O St A} (m : M St A) : M (O * St) A :=
  fun '(o, s) => let '(s1, c) := m s in ((o, s1), c).

(** Read and update the fields of [this]. *)
Definition this {O St} : M (O * St) O := fun '(o, s) => ((o, s), Normal o).

Definition update {O St} (f : O -> O) : M (O * St) unit :=
  fun '(o, s) => ((f o, s), Normal tt).

Declare Scope js_scope.
Delimit Scope js_scope with js.
Notation "x <- m ;; k" := (bind m (fun x => k))
  (at level 61, m at next level, right associativity) : js_scope.
Notation "m ;; k" := (bind m (fun _ => k))
  (at level 61, right associativity) : js_scope.
Local Open Scope js_scope.

(** [for (const x of xs) { await body(x); }] *)
Fixpoint for_of {St X A} (xs : list X) (body : X -> M St A) : M St unit :=
  match xs with
  | [] => ret tt
  | x :: rest => body x ;; for_of rest body
  end.

(** ** The interfaces of [types.ts] *)

Inductive IsolationLevel : Type :=
| default
| readUncommitted
| readCommitted
| writeCommitted
| repeatableRead
| snapshot
| serializable
| linearizable.

(** The numeric value of each member of the [enum]. *)
Definition IsolationLevel_value (l : IsolationLevel) : nat :=
  match l with
  | default => 1
  | readUncommitted => 2
  | readCommitted => 3
  | writeCommitted => 4
  | repeatableRead => 5
  | snapshot => 6
  | serializable => 7
  | linearizable => 8
  end.

Record TxnOptions : Type := {
  isolationLevel : option IsolationLevel;
  readOnly : option bool;
}.

Section Interfaces.
Variables S Ctx : Type.

(** [CtxCallback]: its result ([unknown]) is awaited and dropped. *)
Definition CtxCallback : Type := Ctx -> M S JsVal.

Variable T : Type.

(** [TxnCallback<T>] *)
Definition TxnCallback : Type := Ctx -> T -> M S JsVal.

(** [Transactable<T>]: [opts] is optional. *)
Record Transactable : Type := {
  beginTxn : Ctx -> option TxnOptions -> M S T;
}.

(** [Txn], as the runner uses a [T extends Txn]: [commit] and [rollback]
    declare a context parameter, which a caller may leave out; and the
    probe ['beginTxn' in x] of [isTransactable], which gives [x] seen as a
    transaction source when [x] has the method. *)
Class Txn : Type := {
  commit : T -> option Ctx -> M S unit;
  rollback : T -> option Ctx -> M S unit;
  asTransactable : T -> option Transactable;
}.

Definition isTransactable {txn : Txn} (x : T) : bool :=
  match asTransactable x with
  | Some _ => true
  | None => false
  end.

(** [TxnAccessor<T>]: context getters and a context setter. *)
Record TxnAccessor : Type := {
  getTransactable : Ctx -> option Transactable;
  getTxn : Ctx -> option T;
  withTxn : Ctx -> T -> Ctx;
}.

(** The second argument of the overloaded [run] and [in]: a callback
    ([typeof fnOrOpts === 'function']), an options object, or [null] /
    [undefined]. *)
Inductive FnOrOpts : Type :=
| ArgFn (fn : TxnCallback)
| ArgOpts (opts : TxnOptions)
| ArgNullish.

(** [TxnRunner<T>]; [in] is written [in_]. *)
Record TxnRunner : Type := {
  run : Ctx -> FnOrOpts -> option TxnCallback -> M S unit;
  in_ : Ctx -> FnOrOpts -> option TxnCallback -> M S unit;
}.
End Interfaces.

Arguments ArgFn {S Ctx T} fn.
Arguments ArgOpts {S Ctx T} opts.
Arguments ArgNullish {S Ctx T}.
Arguments isTransactable {S Ctx T txn} x.

(** ** [class TxnRunnerImpl<T extends Txn>] *)

Module TxnRunnerImpl.
Section WithTxn.
Context {S Ctx T : Type} {txn : Txn S Ctx T}.

(** The three private fields, copied from the accessor. *)
Record t : Type := {
  _getTransactable : Ctx -> option (Transactable S Ctx T);
  _getTxn : Ctx -> option T;
  _withTxn : Ctx -> T -> Ctx;
}.

Definition new (accessor : TxnAccessor S Ctx T) : t := {|
  _getTransactable := getTransactable accessor;
  _getTxn := getTxn accessor;
  _withTxn := withTxn accessor;
|}.

(** "Resolve the overloaded arguments": the callback [fn] and [opts]. *)
Definition resolve (fnOrOpts : FnOrOpts S Ctx T)
           (maybeFn : option (TxnCallback S Ctx T))
  : option (TxnCallback S Ctx T) * option TxnOptions :=
  match fnOrOpts with
  | ArgFn fn => (Some fn, None)
  | ArgOpts opts => (maybeFn, Some opts)
  | ArgNullish => (maybeFn, None)
  end.

(** Lines 247-261 of [run]: begin the transaction on [txnSrc], bind it to
    the context, run the callback and commit; on a throw, roll back and
    throw [Transaction failed]. *)
Definition run_txn (self : t) (txnSrc : Transactable S Ctx T) (ctx : Ctx)
           (opts : option TxnOptions) (fn : TxnCallback S Ctx T)
  : M S unit :=
  txn <- beginTxn txnSrc ctx opts ;;
  let txnContext := _withTxn self ctx txn in
  try_catch
    (fn txnContext txn ;;
     commit txn None)
    (fun e =>
       rollback txn None ;;
       throw (TransactionFailed e)).

(** Lines 211-245 of [run]: the argument and context checks, in the order
    of the source.  They give the error to throw, or the transaction
    source to begin on with the resolved options and callback. *)
Definition run_checks (self : t) (ctx : Ctx) (fnOrOpts : FnOrOpts S Ctx T)
           (maybeFn : option (TxnCallback S Ctx T))
  : JsVal + (Transactable S Ctx T * option TxnOptions * TxnCallback S Ctx T) :=
  let '(fn, opts) := resolve fnOrOpts maybeFn in
  match _getTransactable self ctx with
  | None => inl ConfigurationError
  | Some txnSrc =>
      match fn with
      | None => inl MissingCallbackError
      | Some fn =>
          match _getTxn self ctx with
          | Some existingTxn =>
              match asTransactable existingTxn with
              | Some nested => inr (nested, opts, fn)
              | None => inl NestedTransactionError
              end
          | None => inr (txnSrc, opts, fn)
          end
      end
  end.

Definition run (self : t) (ctx : Ctx) (fnOrOpts : FnOrOpts S Ctx T)
           (maybeFn : option (TxnCallback S Ctx T)) : M S unit :=
  match run_checks self ctx fnOrOpts maybeFn with
  | inl e => throw e
  | inr (txnSrc, opts, fn) => run_txn self txnSrc ctx opts fn
  end.

(** The [try] block of [run], entered in [s0] on the transaction [x],
    threw [e] and left [s1]: the callback threw it, or the callback
    returned and [commit] threw it. *)
Definition try_block_throws (self : t) (ctx : Ctx)
           (fn : TxnCallback S Ctx T) (x : T) (s0 s1 : S) (e : JsVal)
  : Prop :=
  fn (_withTxn self ctx x) x s0 = (s1, Throw e)
  \/ exists v s', fn (_withTxn self ctx x) x s0 = (s', Normal v)
                  /\ commit x None s' = (s1, Throw e).

(** [fn(...)] where [fn] may be [undefined]: calling it is a [TypeError]. *)
Definition call (fn : option (TxnCallback S Ctx T)) (ctx : Ctx) (x : T)
  : M S JsVal :=
  match fn with
  | Some f => f ctx x
  | None => throw (JError "TypeError" "fn is not a function" JUndefined)
  end.

(** [fn] as the second argument of [this.run(ctx, fn)]. *)
Definition arg_of (fn : option (TxnCallback S Ctx T)) : FnOrOpts S Ctx T :=
  match fn with
  | Some f => ArgFn f
  | None => ArgNullish
  end.

Definition in_ (self : t) (ctx : Ctx) (fnOrOpts : FnOrOpts S Ctx T)
           (maybeFn : option (TxnCallback S Ctx T)) : M S unit :=
  let '(fn, opts) := resolve fnOrOpts maybeFn in
  match _getTxn self ctx with
  | Some existingTxn =>
      call fn ctx existingTxn ;;
      ret tt
  | None =>
      match opts with
      | None => run self ctx (arg_of fn) None
      | Some opts => run self ctx (ArgOpts opts) fn
      end
  end.
End WithTxn.
Arguments t S Ctx T : clear implicits.
End TxnRunnerImpl.

(** [txn(accessor)]: the runner of an accessor. *)
Definition txn {S Ctx T} {ops : Txn S Ctx T} (accessor : TxnAccessor S Ctx T)
  : TxnRunner S Ctx T := {|
  run := TxnRunnerImpl.run (TxnRunnerImpl.new accessor);
  in_ := TxnRunnerImpl.in_ (TxnRunnerImpl.new accessor);
|}.

(** ** [class ChangeSetImpl] *)

Module ChangeSetImpl.
Section WithState.
Variables S Ctx : Type.

Record t : Type := {
  commitFns : list (CtxCallback S Ctx);
  rollbackFns : list (CtxCallback S Ctx);
  ctx : Ctx;
  done : bool;
  ignoreStatus : bool;
}.

(** [new ChangeSetImpl(ctx)] *)
Definition new (c : Ctx) : t := {|
  commitFns := [];
  rollbackFns := [];
  ctx := c;
  done := false;
  ignoreStatus := false;
|}.

(** Field writes. *)
Definition set_done (b : bool) (o : t) : t := {|
  commitFns := commitFns o;
  rollbackFns := rollbackFns o;
  ctx := ctx o;
  done := b;
  ignoreStatus := ignoreStatus o;
|}.

Definition set_ignoreStatus (b : bool) (o : t) : t := {|
  commitFns := commitFns o;
  rollbackFns := rollbackFns o;
  ctx := ctx o;
  done := done o;
  ignoreStatus := b;
|}.

(** [this.commitFns.push(fn)] and [this.rollbackFns.push(fn)] *)
Definition push_commitFns (fn : CtxCallback S Ctx) (o : t) : t := {|
  commitFns := commitFns o ++ [fn];
  rollbackFns := rollbackFns o;
  ctx := ctx o;
  done := done o;
  ignoreStatus := ignoreStatus o;
|}.

Definition push_rollbackFns (fn : CtxCallback S Ctx) (o : t) : t := {|
  commitFns := commitFns o;
  rollbackFns := rollbackFns o ++ [fn];
  ctx := ctx o;
  done := done o;
  ignoreStatus := ignoreStatus o;
|}.

Definition checkStatus : M (t * S) unit :=
  o <- this ;;
  if done o then throw AlreadyCompletedError else ret tt.

Definition defer (fn : CtxCallback S Ctx) : M (t * S) unit :=
  checkStatus ;;
  update (push_commitFns fn).

Definition deferFail (fn : CtxCallback S Ctx) : M (t * S) unit :=
  checkStatus ;;
  update (push_rollbackFns fn).

(** The [try { for ...; ok = true } finally { this.ignoreStatus = !ok }]
    block shared by both [commit] methods. *)
Definition run_commitFns : M (t * S) unit :=
  o <- this ;;
  try_finally
    (for_of (commitFns o) (fun fn => lift (fn (ctx o))))
    (fun c => update (set_ignoreStatus (negb (is_ok c)))).

Definition commit : M (t * S) unit :=
  checkStatus ;;
  update (set_done true) ;;
  run_commitFns.

Definition rollback : M (t * S) unit :=
  o <- this ;;
  (if ignoreStatus o
   then update (set_ignoreStatus false)
   else checkStatus) ;;
  update (set_done true) ;;
  o <- this ;;
  for_of (rollbackFns o) (fun fn => lift (fn (ctx o))).

(** [cs.commit(arg)] and [cs.rollback(arg)] as a caller of the [Txn] and
    [ChangeSet] interfaces may write them: the interfaces declare a context
    parameter, the methods of the class declare none, so the argument is
    dropped. *)
Definition commit_with (arg : option Ctx) : M (t * S) unit := commit.

Definition rollback_with (arg : option Ctx) : M (t * S) unit := rollback.

(** The object a [commit] that passed the guard leaves: complete, and the
    ignore-status window open exactly when the actions did not all
    return ([ok] false). *)
Definition committed (o : t) (ok : bool) : t :=
  set_ignoreStatus (negb ok) (set_done true o).

(** The object a [rollback] that passed the guard leaves: complete, with
    the window shut. *)
Definition rolledBack (o : t) : t :=
  set_done true (set_ignoreStatus false o).
End WithState.
Arguments checkStatus {S Ctx}.
Arguments run_commitFns {S Ctx}.
Arguments commit {S Ctx}.
Arguments rollback {S Ctx}.
Arguments commit_with {S Ctx} arg.
Arguments rollback_with {S Ctx} arg.
End ChangeSetImpl.

(** [csBuilder.beginTxn(ctx)]: a fresh change set on [ctx]. *)
Definition csBuilder_beginTxn (S : Type) {Ctx} (ctx : Ctx)
  : ChangeSetImpl.t S Ctx :=
  ChangeSetImpl.new S ctx.

(** ** Transactional actions and the live list of [deferTxn]

    [deferTxn] has no status check, and the transactional loop of [commit]
    iterates [this.#commitTxn] itself, not a copy of it.  A transactional
    action that holds the set it is registered on can therefore call
    [deferTxn] on it while the loop runs, and the loop reaches the new entry
    after the entries that were in the array before it.  Every other method
    of the set is turned down at that point, the set being complete and its
    window shut, so this is all such an action can do to its own set. *)

Section TxnActionType.
Variables S Ctx T : Type.

(** A callback given to [deferTxn]: the [TxnCallback] itself, [fn], and the
    callbacks it passes to [deferTxn] of the set it is registered on while
    it runs, in the order of the calls, for the arguments and the state it
    is called in.  The type is inductive: the registrations of an action,
    of the actions it registers, and so on, come to an end. *)
Local Unset Elimination Schemes.
Inductive TxnAction : Type :=
| Action (fn : TxnCallback S Ctx T)
         (defers : Ctx -> T -> S -> list TxnAction).
Local Set Elimination Schemes.

Definition action_fn (a : TxnAction) : TxnCallback S Ctx T :=
  match a with
  | Action fn _ => fn
  end.

Definition action_defers (a : TxnAction) : Ctx -> T -> S -> list TxnAction :=
  match a with
  | Action _ defers => defers
  end.

(** A callback that does not touch the set it is registered on. *)
Definition plain (fn : TxnCallback S Ctx T) : TxnAction :=
  Action fn (fun _ _ _ => []).
End TxnActionType.
Arguments plain {S Ctx T} fn.

Section LiveList.
Variables S Ctx T : Type.

(** What the loop has still to call, by rounds: [step] calls, in order, the
    entries that are in the array now, and [next s] is what those entries
    add to the array when the round starts in [s], to be called after
    them. *)
Inductive Pending : Type :=
| NoMore
| Level (step : M S unit) (next : S -> Pending).

(** The entries of [l1] followed by those of [l2]: round by round, those of
    [l1] first; what a round of [l2] adds depends on the state the same
    round of [l1] has left. *)
Fixpoint merge (l1 l2 : Pending) : Pending :=
  match l1 with
  | NoMore => l2
  | Level k1 n1 =>
      match l2 with
      | NoMore => l1
      | Level k2 n2 =>
          Level (k1 ;; k2) (fun s => merge (n1 s) (n2 (fst (k1 s))))
      end
  end.

Variables (txCtx : Ctx) (txn : T).

(** One entry: [await fn(txCtx, txn)], then what [fn] has registered. *)
Fixpoint pending_of (a : TxnAction S Ctx T) : Pending :=
  match a with
  | Action fn defers =>
      Level (fn txCtx txn ;; ret tt)
            (fun s => fold_right (fun b acc => merge (pending_of b) acc)
                                 NoMore (defers txCtx txn s))
  end.

(** The array [fns]. *)
Definition pending (fns : list (TxnAction S Ctx T)) : Pending :=
  fold_right (fun a acc => merge (pending_of a) acc) NoMore fns.

(** Call everything, round after round, up to the first throw. *)
Fixpoint drain (l : Pending) : M S unit :=
  match l with
  | NoMore => ret tt
  | Level k n =>
      fun s =>
        match k s with
        | (s1, Normal _) => drain (n s) s1
        | (s1, Throw e) => (s1, Throw e)
        end
  end.

(** [for (const fn of this.#commitTxn) { await fn(txCtx, txn); }] on the
    live array that starts as [fns].  The loop calls the first entry; when
    it throws, the loop throws; otherwise the loop goes on with the rest of
    the array followed by what the entry has registered ([run_live_nil],
    [run_live_cons]). *)
Definition run_live (fns : list (TxnAction S Ctx T)) : M S unit :=
  drain (pending fns).

(** What the entries of [fns] register when they are called in order from
    [s], each from the state the one before it left: what the array has
    gained once the loop has been through [fns]. *)
Fixpoint round_defers (fns : list (TxnAction S Ctx T)) (s : S)
  : list (TxnAction S Ctx T) :=
  match fns with
  | [] => []
  | a :: rest =>
      action_defers a txCtx txn s
        ++ round_defers rest (fst (action_fn a txCtx txn s))
  end.

(** [l] and [l'] make the same calls: round by round the same step, and,
    where the step returns, the same additions. *)
Fixpoint sim (l l' : Pending) : Prop :=
  match l, l' with
  | NoMore, NoMore => True
  | Level k n, Level k' n' =>
      forall s, k s = k' s
                /\ (is_ok (snd (k s)) = true -> sim (n s) (n' s))
  | _, _ => False
  end.
End LiveList.
Arguments NoMore {S}.

(** ** [class TxnChangeSetImpl<T extends Txn> extends ChangeSetImpl] *)

Module TxnChangeSetImpl.
Section WithState.
Variables S Ctx T : Type.

(** The inherited fields ([super]) and the two private ones. *)
Record t : Type := {
  super : ChangeSetImpl.t S Ctx;
  _commitTxn : list (TxnAction S Ctx T);
  _txnRunner : TxnRunner S Ctx T;
}.

(** [new TxnChangeSetImpl(ctx, txnRunner)] *)
Definition new (c : Ctx) (txnRunner : TxnRunner S Ctx T) : t := {|
  super := ChangeSetImpl.new S c;
  _commitTxn := [];
  _txnRunner := txnRunner;
|}.

Definition set_super (b : ChangeSetImpl.t S Ctx) (o : t) : t := {|
  super := b;
  _commitTxn := _commitTxn o;
  _txnRunner := _txnRunner o;
|}.

(** [this.#commitTxn.push(fn)] *)
Definition push_commitTxn (fn : TxnAction S Ctx T) (o : t) : t := {|
  super := super o;
  _commitTxn := _commitTxn o ++ [fn];
  _txnRunner := _txnRunner o;
|}.

(** A method of [ChangeSetImpl] run on the inherited fields. *)
Definition inherited {A} (m : M (ChangeSetImpl.t S Ctx * S) A)
  : M (t * S) A :=
  fun '(o, s) =>
    let '((b, s1), c) := m (super o, s) in
    ((set_super b o, s1), c).

Definition checkStatus : M (t * S) unit :=
  inherited (@ChangeSetImpl.checkStatus S Ctx).

Definition defer (fn : CtxCallback S Ctx) : M (t * S) unit :=
  inherited (ChangeSetImpl.defer fn).

Definition deferFail (fn : CtxCallback S Ctx) : M (t * S) unit :=
  inherited (ChangeSetImpl.deferFail fn).

Definition rollback : M (t * S) unit :=
  inherited (@ChangeSetImpl.rollback S Ctx).

Definition deferTxn (fn : TxnAction S Ctx T) : M (t * S) unit :=
  update (push_commitTxn fn).

(** The callback handed to the runner:
    [async (txCtx, txn) => { for (const fn of this.#commitTxn) await fn(txCtx, txn); }]
    The loop is over the live array: it starts on the entries [this] has
    when the runner calls the callback, and also reaches the entries the
    actions register while it runs.  The array is not read again once the
    loop is over ([commit] is turned down from then on), so the entries
    added during the loop are kept in the loop and not written back to
    [_commitTxn]. *)
Definition run_commitTxn (o : t) : TxnCallback S Ctx T :=
  fun txCtx txn =>
    run_live txCtx txn (_commitTxn o) ;;
    ret JUndefined.

Definition commit : M (t * S) unit :=
  checkStatus ;;
  inherited (update (ChangeSetImpl.set_done true)) ;;
  o <- this ;;
  let ctx := ChangeSetImpl.ctx (super o) in
  (if (0 <? List.length (_commitTxn o))%nat
   then
     try_finally
       (lift (run (_txnRunner o) ctx (ArgFn (run_commitTxn o)) None))
       (fun c => inherited
                   (update (ChangeSetImpl.set_ignoreStatus (negb (is_ok c)))))
   else ret tt) ;;
  inherited (@ChangeSetImpl.run_commitFns S Ctx).

(** The set a [commit] that passed the guard leaves when its last phase
    completed with [ok], and the set a [rollback] that passed it leaves. *)
Definition committed (o : t) (ok : bool) : t :=
  set_super (ChangeSetImpl.committed (super o) ok) o.

Definition rolledBack (o : t) : t :=
  set_super (ChangeSetImpl.rolledBack (super o)) o.
End WithState.
Arguments checkStatus {S Ctx T}.
Arguments commit {S Ctx T}.
Arguments rollback {S Ctx T}.
End TxnChangeSetImpl.

(** ** Running a list of actions in order *)

Section Actions.
Variables S Ctx : Type.

(** The actions of [fns] called on [c] one after the other, each awaited,
    up to the first one that throws. *)
Definition run_all (c : Ctx) (fns : list (CtxCallback S Ctx)) : M S unit :=
  for_of fns (fun fn => fn c).

(** [chain c fns s s']: every action of [fns], called on [c] in list order,
    each from the state the previous one left, returns normally; the last
    one leaves [s']. *)
Inductive chain (c : Ctx) : list (CtxCallback S Ctx) -> S -> S -> Prop :=
| chain_nil : forall s, chain c [] s s
| chain_cons : forall fn fns s v s1 s2,
    fn c s = (s1, Normal v) ->
    chain c fns s1 s2 ->
    chain c (fn :: fns) s s2.

(** [fn] made to note, in a list kept beside the world, the context it is
    called with, and then to act as [fn]:
    [(ctx) => { seen.push(ctx); return fn(ctx); }] *)
Definition recording (fn : CtxCallback S Ctx)
  : CtxCallback (list Ctx * S) Ctx :=
  fun c '(seen, s) =>
    let '(s1, r) := fn c s in
    ((seen ++ [c], s1), r).
End Actions.

(** ** Running a list of transactional actions in order *)

Section TxnActions.
Variables S Ctx T : Type.

(** The callbacks of the transactional actions of [fns] called on [c] and
    the transaction [x] one after the other, each awaited, up to the first
    one that throws: the entries of [fns] alone, without what they
    register. *)
Definition run_all_txn (c : Ctx) (x : T) (fns : list (TxnAction S Ctx T))
  : M S unit :=
  for_of fns (fun a => action_fn a c x).
End TxnActions.

(** ** Histories of calls on a change set *)

Section Calls.
Variables S Ctx : Type.

(** A call of one of the four public methods of a change set. *)
Inductive Call : Type :=
| Defer (fn : CtxCallback S Ctx)
| DeferFail (fn : CtxCallback S Ctx)
| Commit
| Rollback.

Definition perform (call : Call) : M (ChangeSetImpl.t S Ctx * S) unit :=
  match call with
  | Defer fn => ChangeSetImpl.defer fn
  | DeferFail fn => ChangeSetImpl.deferFail fn
  | Commit => ChangeSetImpl.commit
  | Rollback => ChangeSetImpl.rollback
  end.

(** A program that makes the calls one after the other, each in its own
    [try]/[catch]: the completions are collected. *)
Fixpoint perform_all (calls : list Call) (x : ChangeSetImpl.t S Ctx * S)
  : (ChangeSetImpl.t S Ctx * S) * list (Completion unit) :=
  match calls with
  | [] => (x, [])
  | call :: rest =>
      let '(x1, c) := perform call x in
      let '(x2, cs) := perform_all rest x1 in
      (x2, c :: cs)
  end.

(** The states of a change set, read off its two flags: not yet complete;
    complete with the ignore-status window open (a commit threw); complete
    with the window shut. *)
Inductive Phase : Type :=
| Open
| CommitFailed
| Finished.

Definition phase (o : ChangeSetImpl.t S Ctx) : Phase :=
  if ChangeSetImpl.done o
  then (if ChangeSetImpl.ignoreStatus o then CommitFailed else Finished)
  else Open.

(** The calls a phase lets through its status guard. *)
Definition accepts (p : Phase) (call : Call) : bool :=
  match p, call with
  | Open, _ => true
  | CommitFailed, Rollback => true
  | _, _ => false
  end.

(** The phase after a call, given whether the call returned ([ok]). *)
Definition next (p : Phase) (call : Call) (ok : bool) : Phase :=
  match p, call with
  | Open, Defer _ => Open
  | Open, DeferFail _ => Open
  | Open, Commit => if ok then Finished else CommitFailed
  | Open, Rollback => Finished
  | CommitFailed, Rollback => Finished
  | _, _ => p
  end.

(** The [commit] and [rollback] calls of a history that got through the
    status guard, in order: the calls that ran an action loop. *)
Fixpoint loops_run (calls : list Call) (x : ChangeSetImpl.t S Ctx * S)
  : list Call :=
  match calls with
  | [] => []
  | call :: rest =>
      let ran :=
        match call with
        | Commit | Rollback => accepts (phase (fst x)) call
        | _ => false
        end in
      (if ran then [call] else []) ++ loops_run rest (fst (perform call x))
  end.

(** The actions a history of calls registers, in the order of the calls. *)
Fixpoint deferred (calls : list Call) : list (CtxCallback S Ctx) :=
  match calls with
  | [] => []
  | Defer fn :: rest => fn :: deferred rest
  | _ :: rest => deferred rest
  end.

Fixpoint deferredFail (calls : list Call) : list (CtxCallback S Ctx) :=
  match calls with
  | [] => []
  | DeferFail fn :: rest => fn :: deferredFail rest
  | _ :: rest => deferredFail rest
  end.

(** A history that only registers. *)
Definition registers (calls : list Call) : Prop :=
  Forall (fun call => match call with
                      | Defer _ | DeferFail _ => True
                      | _ => False
                      end) calls.
End Calls.

Arguments Commit {S Ctx}.
Arguments Rollback {S Ctx}.

(** ** Objects held by reference *)

(** The change sets a runner makes are objects: the runner, its callback
    and the context hold references to them.  A store is the list of the
    objects made so far and a reference is a position in it; the state of
    a program that uses such objects is the store and the world [W] their
    deferred callbacks act on. *)
Section ObjectStore.
Variables O W : Type.

Definition Store : Type := list O.

(** [new ...]: the object is added to the store and its reference given. *)
Definition alloc (o : O) : M (Store * W) nat :=
  fun '(h, w) => ((h ++ [o], w), Normal (List.length h)).

Fixpoint write (r : nat) (o : O) (h : Store) : Store :=
  match h, r with
  | [], _ => []
  | _ :: rest, 0 => o :: rest
  | x :: rest, Datatypes.S r' => x :: write r' o rest
  end.

(** [r.m(...)]: the method [m] run on the object [r] refers to.  A
    reference that the store never gave out refers to nothing, and a call
    on it is a [TypeError]. *)
Definition on {A} (r : nat) (m : M (O * W) A) : M (Store * W) A :=
  fun '(h, w) =>
    match nth_error h r with
    | Some o => let '((o', w'), c) := m (o, w) in ((write r o' h, w'), c)
    | None =>
        ((h, w),
         Throw (JError "TypeError" "Cannot read properties of undefined"
                       JUndefined))
    end.
End ObjectStore.

(** ** [changeSet()]: the runner of change sets *)

Section ChangeSetRunner.
Variables W Ctx : Type.

(** The context carrier of [@sabl/context], as far as the runner of change
    sets uses it: [ctx.value(key)] and [withValue(ctx, key, value)], on the
    references the engine stores under its private key. *)
Variable Key : Type.
Variable value : Ctx -> Key -> option nat.
Variable withValue : Ctx -> Key -> nat -> Ctx.

(** [const ctxKeyChangeSet = Symbol('ChangeSet')] *)
Variable ctxKeyChangeSet : Key.

(** The state of a program that runs change sets. *)
Definition CsState : Type := Store (ChangeSetImpl.t W Ctx) * W.

(** [csBuilder]: [beginTxn(ctx)] makes a new change set on [ctx]. *)
Definition csBuilder : Transactable CsState Ctx nat := {|
  beginTxn := fun ctx _ => alloc (csBuilder_beginTxn W ctx);
|}.

Definition getCsBuilder : option (Transactable CsState Ctx nat) :=
  Some csBuilder.

Definition getChangeSet (ctx : Ctx) : option nat :=
  value ctx ctxKeyChangeSet.

Definition withChangeSet (ctx : Ctx) (cs : nat) : Ctx :=
  withValue ctx ctxKeyChangeSet cs.

(** A change set as the [Txn] the runner sees: the two methods of
    [ChangeSetImpl], and no [beginTxn]. *)
Definition ChangeSet_Txn : Txn CsState Ctx nat := {|
  commit := fun cs arg => on cs (ChangeSetImpl.commit_with arg);
  rollback := fun cs arg => on cs (ChangeSetImpl.rollback_with arg);
  asTransactable := fun _ => None;
|}.

(** The accessor [changeSet()] makes its runner from. *)
Definition csAccessor : TxnAccessor CsState Ctx nat := {|
  getTransactable := fun _ => getCsBuilder;
  getTxn := getChangeSet;
  withTxn := withChangeSet;
|}.

(** [changeSet()] *)
Definition changeSet : TxnRunner CsState Ctx nat :=
  @txn CsState Ctx nat ChangeSet_Txn csAccessor.

(** A callback of the runner that makes the calls of [calls] on the change
    set it is given, one after the other, and then completes as [finish]:
    it returns, or it throws. *)
Definition script (calls : list (Call W Ctx)) (finish : Completion JsVal)
  : TxnCallback CsState Ctx nat :=
  fun _ cs =>
    for_of calls (fun call => on cs (perform call)) ;;
    (fun x => (x, finish)).

(** A callback that passes its context on to [inner], a method of the
    runner ([run] or [in]), with the callback [fn]. *)
Definition nested
           (inner : Ctx -> FnOrOpts CsState Ctx nat ->
                    option (TxnCallback CsState Ctx nat) -> M CsState unit)
           (fn : TxnCallback CsState Ctx nat)
  : TxnCallback CsState Ctx nat :=
  fun ctx _ =>
    inner ctx (ArgFn fn) None ;;
    ret JUndefined.
End ChangeSetRunner.

(** ** [txnChangeSet(accessor)]: the runner of transaction change sets *)

Section TxnChangeSetRunner.
Context {S Ctx T : Type} {ops : Txn S Ctx T}.

(** The context carrier, as far as this runner uses it: the references the
    engine stores under [ctxKeyTxnChangeSet]. *)
Variable Key : Type.
Variable value : Ctx -> Key -> option nat.
Variable withValue : Ctx -> Key -> nat -> Ctx.

(** [const ctxKeyTxnChangeSet = Symbol('TxnChangeSet')] *)
Variable ctxKeyTxnChangeSet : Key.

(** The state of a program that runs transaction change sets: the sets
    made so far, and the state [S] of the transactions they wrap. *)
Definition TxnCsState : Type := Store (TxnChangeSetImpl.t S Ctx T) * S.

(** A transaction change set as the [Txn] the runner sees. *)
Definition TxnChangeSet_Txn : Txn TxnCsState Ctx nat := {|
  commit := fun cs _ => on cs TxnChangeSetImpl.commit;
  rollback := fun cs _ => on cs TxnChangeSetImpl.rollback;
  asTransactable := fun _ => None;
|}.

Definition makeTxnCsAccessor (accessor : TxnAccessor S Ctx T)
  : TxnAccessor TxnCsState Ctx nat := {|
  getTransactable := fun _ =>
    Some {| beginTxn := fun ctx _ =>
              let runner := txn accessor in
              alloc (TxnChangeSetImpl.new ctx runner) |};
  getTxn := fun ctx => value ctx ctxKeyTxnChangeSet;
  withTxn := fun ctx cs => withValue ctx ctxKeyTxnChangeSet cs;
|}.

(** [txnChangeSet(accessor)] *)
Definition txnChangeSet (accessor : TxnAccessor S Ctx T)
  : TxnRunner TxnCsState Ctx nat :=
  @txn TxnCsState Ctx nat TxnChangeSet_Txn (makeTxnCsAccessor accessor).

(** A registration on a transaction change set. *)
Inductive Registration : Type :=
| RegDefer (fn : CtxCallback S Ctx)
| RegDeferFail (fn : CtxCallback S Ctx)
| RegDeferTxn (fn : TxnAction S Ctx T).

Definition register (reg : Registration)
  : M (TxnChangeSetImpl.t S Ctx T * S) unit :=
  match reg with
  | RegDefer fn => TxnChangeSetImpl.defer fn
  | RegDeferFail fn => TxnChangeSetImpl.deferFail fn
  | RegDeferTxn fn => TxnChangeSetImpl.deferTxn fn
  end.

(** The actions a sequence of registrations gives to each method, in the
    order of the registrations. *)
Fixpoint toCommit (regs : list Registration) : list (CtxCallback S Ctx) :=
  match regs with
  | [] => []
  | RegDefer fn :: rest => fn :: toCommit rest
  | _ :: rest => toCommit rest
  end.

Fixpoint toUndo (regs : list Registration) : list (CtxCallback S Ctx) :=
  match regs with
  | [] => []
  | RegDeferFail fn :: rest => fn :: toUndo rest
  | _ :: rest => toUndo rest
  end.

Fixpoint inTxn (regs : list Registration) : list (TxnAction S Ctx T) :=
  match regs with
  | [] => []
  | RegDeferTxn fn :: rest => fn :: inTxn rest
  | _ :: rest => inTxn rest
  end.

(** A callback of the runner that makes the registrations of [regs] on the
    set it is given and then completes as [finish]. *)
Definition registering (regs : list Registration) (finish : Completion JsVal)
  : TxnCallback TxnCsState Ctx nat :=
  fun _ cs =>
    for_of regs (fun reg => on cs (register reg)) ;;
    (fun x => (x, finish)).

(** The transactional phase of the commit of a set made on [ctx] with the
    transactional actions [fns]: nothing when there is none, else the run
    of the runner of [accessor] on the callback that calls them in order,
    and after them the actions they register meanwhile. *)
Definition txn_phase (accessor : TxnAccessor S Ctx T) (ctx : Ctx)
           (fns : list (TxnAction S Ctx T)) : M S unit :=
  match fns with
  | [] => ret tt
  | _ =>
      run (txn accessor) ctx
          (ArgFn (fun txCtx x => run_live txCtx x fns ;; ret JUndefined))
          None
  end.
End TxnChangeSetRunner.

(** ** Concrete worlds, used to run the model on examples *)

(** A world that is a log of messages, as the [msgStack] of the tests. *)
Definition Log : Type := list string.

(** A callback that logs [msg] and returns. *)
Definition say {Ctx} (msg : string) : CtxCallback Log Ctx :=
  fun _ log => (log ++ [msg], Normal JUndefined).

(** A callback that logs [msg] and then throws [e]. *)
Definition say_throw {Ctx} (msg : string) (e : JsVal) : CtxCallback Log Ctx :=
  fun _ log => (log ++ [msg], Throw e).

(** A callback that logs the context it is called with. *)
Definition say_ctx : CtxCallback Log string :=
  fun c log => (log ++ [c], Normal JUndefined).

Definition on_purpose : JsVal := new_Error "Rolling back on purpose" JUndefined.

(** A transaction that logs its calls; [commit] and [rollback] throw when
    told to, and it starts nested transactions when [nestable]. *)
Record DemoTxn : Type := {
  label : string;
  nestable : bool;
  commitThrows : option JsVal;
  rollbackThrows : option JsVal;
}.

(** A context: whether it carries a transaction source, and the open
    transaction it carries. *)
Record DemoCtx : Type := {
  hasSource : bool;
  openTxn : option DemoTxn;
}.

Definition completes (r : option JsVal) : Completion unit :=
  match r with
  | Some e => Throw e
  | None => Normal tt
  end.

(** The source of the demo: [beginTxn] logs the call and opens [x]. *)
Definition demoSource (x : DemoTxn) : Transactable Log DemoCtx DemoTxn := {|
  beginTxn := fun _ _ log => (log ++ ["begin " ++ label x]%string, Normal x);
|}.

Definition demoChild (x : DemoTxn) : DemoTxn := {|
  label := (label x ++ ".child")%string;
  nestable := nestable x;
  commitThrows := None;
  rollbackThrows := None;
|}.

#[export] Instance DemoTxn_Txn : Txn Log DemoCtx DemoTxn := {|
  commit := fun x _ log =>
    (log ++ ["commit " ++ label x]%string, completes (commitThrows x));
  rollback := fun x _ log =>
    (log ++ ["rollback " ++ label x]%string, completes (rollbackThrows x));
  asTransactable := fun x =>
    if nestable x then Some (demoSource (demoChild x)) else None;
|}.

(** The accessor of the demo; its source opens [x]. *)
Definition demoAccessor (x : DemoTxn) : TxnAccessor Log DemoCtx DemoTxn := {|
  getTransactable := fun c => if hasSource c then Some (demoSource x) else None;
  getTxn := openTxn;
  withTxn := fun c y => {| hasSource := hasSource c; openTxn := Some y |};
|}.

(** A source whose [beginTxn] always throws, as the booby-trapped pool of
    the tests. *)
Definition trappedAccessor : TxnAccessor Log DemoCtx DemoTxn := {|
  getTransactable := fun _ =>
    Some {| beginTxn := fun _ _ log =>
              (log ++ ["begin"], Throw (new_Error "No transactions for you!" JUndefined)) |};
  getTxn := openTxn;
  withTxn := fun c y => {| hasSource := hasSource c; openTxn := Some y |};
|}.

Definition plainTxn : DemoTxn := {|
  label := "t";
  nestable := false;
  commitThrows := None;
  rollbackThrows := None;
|}.

Definition rootCtx : DemoCtx := {| hasSource := true; openTxn := None |}.

(** The object [prog] leaves when run on [o] in the empty log. *)
Definition after {O} (prog : M (O * Log) unit) (o : O) : O :=
  fst (fst (prog (o, []))).

(** The change set of the test "runs deferFail callbacks": three steps with
    their undo actions, and a commit action that throws before the third. *)
Definition demoChangeSet : ChangeSetImpl.t Log string :=
  after (ChangeSetImpl.defer (say "Pushed a") ;;
         ChangeSetImpl.deferFail (say "Spliced out a") ;;
         ChangeSetImpl.defer (say "Pushed b") ;;
         ChangeSetImpl.deferFail (say "Spliced out b") ;;
         ChangeSetImpl.defer (fun _ => throw on_purpose) ;;
         ChangeSetImpl.defer (say "Pushed c") ;;
         ChangeSetImpl.deferFail (say "Spliced out c"))
        (csBuilder_beginTxn Log "ctx").

(** A change set whose first failure action throws. *)
Definition failingCleanup : ChangeSetImpl.t Log string :=
  after (ChangeSetImpl.deferFail (say_throw "failed1" on_purpose) ;;
         ChangeSetImpl.deferFail (say "failed2"))
        (csBuilder_beginTxn Log "ctx").

(** A transaction whose [rollback] throws. *)
Definition brokenTxn : DemoTxn := {|
  label := "t";
  nestable := false;
  commitThrows := None;
  rollbackThrows := Some (JString "rollback failed");
|}.

(** A transaction that can begin nested transactions. *)
Definition nestableTxn : DemoTxn := {|
  label := "outer";
  nestable := true;
  commitThrows := None;
  rollbackThrows := None;
|}.

(** The context [c] once it carries [x]. *)
Definition carrying (x : DemoTxn) : DemoCtx :=
  {| hasSource := true; openTxn := Some x |}.

(** A runner callback that logs and returns, and one that throws. *)
Definition work : TxnCallback Log DemoCtx DemoTxn :=
  fun _ x log => (log ++ ["work in " ++ label x]%string, Normal JUndefined).

Definition failing : TxnCallback Log DemoCtx DemoTxn :=
  fun _ _ => throw on_purpose.

(** The transaction change set of the test "does not open a transaction if
    no txn callbacks": its runner's source throws on [beginTxn], and only
    [defer] and [deferFail] are called on it. *)
Definition trappedChangeSet : TxnChangeSetImpl.t Log DemoCtx DemoTxn :=
  after (TxnChangeSetImpl.defer (say "c") ;;
         TxnChangeSetImpl.defer (say "Pushed c!") ;;
         TxnChangeSetImpl.deferFail (say "Called error callback"))
        (TxnChangeSetImpl.new rootCtx (txn trappedAccessor)).

(** A transaction change set on which [commit] has completed. *)
Definition completedTxnChangeSet : TxnChangeSetImpl.t Log DemoCtx DemoTxn :=
  after (@TxnChangeSetImpl.commit Log DemoCtx DemoTxn)
        (TxnChangeSetImpl.new rootCtx (txn (demoAccessor plainTxn))).

(** A transaction change set on the runner of the demo with one
    transactional action, one commit action and one failure action, as in
    the test "commits both txn and non-txn callbacks". *)
Definition demoTxnChangeSet : TxnChangeSetImpl.t Log DemoCtx DemoTxn :=
  after (TxnChangeSetImpl.deferTxn (plain work) ;;
         TxnChangeSetImpl.defer (say "Pushed c!") ;;
         TxnChangeSetImpl.deferFail (say "Called error callback"))
        (TxnChangeSetImpl.new rootCtx (txn (demoAccessor plainTxn))).

(** The same with a second transactional action, which throws, as in the
    test "within txn rolls back underlying transaction". *)
Definition failingTxnChangeSet : TxnChangeSetImpl.t Log DemoCtx DemoTxn :=
  after (TxnChangeSetImpl.deferTxn (plain work) ;;
         TxnChangeSetImpl.deferTxn (plain failing) ;;
         TxnChangeSetImpl.defer (say "Pushed c!") ;;
         TxnChangeSetImpl.deferFail (say "Called error callback"))
        (TxnChangeSetImpl.new rootCtx (txn (demoAccessor plainTxn))).

(** A transaction change set made on a context that already carries a
    transaction that cannot nest. *)
Definition enclosedTxnChangeSet : TxnChangeSetImpl.t Log DemoCtx DemoTxn :=
  after (TxnChangeSetImpl.deferTxn (plain work) ;;
         TxnChangeSetImpl.defer (say "Pushed c!"))
        (TxnChangeSetImpl.new (carrying plainTxn) (txn (demoAccessor plainTxn))).

(** A transactional action that logs as [work] does and, while it runs,
    gives [late] to [deferTxn] of the set it is registered on:
    [(ctx, txn) => { log(...); cs.deferTxn(late); }] *)
Definition lateWork : TxnCallback Log DemoCtx DemoTxn :=
  fun _ x log => (log ++ ["late work in " ++ label x]%string, Normal JUndefined).

Definition workThenDefer (late : TxnCallback Log DemoCtx DemoTxn)
  : TxnAction Log DemoCtx DemoTxn :=
  Action work (fun _ _ _ => [plain late]).

(** A transaction change set whose first transactional action registers a
    second one during [commit]. *)
Definition lateTxnChangeSet : TxnChangeSetImpl.t Log DemoCtx DemoTxn :=
  after (TxnChangeSetImpl.deferTxn (workThenDefer lateWork) ;;
         TxnChangeSetImpl.deferTxn (plain work) ;;
         TxnChangeSetImpl.defer (say "Pushed c!") ;;
         TxnChangeSetImpl.deferFail (say "Called error callback"))
        (TxnChangeSetImpl.new rootCtx (txn (demoAccessor plainTxn))).

(** The same, the action registered during [commit] throwing. *)
Definition lateFailingTxnChangeSet : TxnChangeSetImpl.t Log DemoCtx DemoTxn :=
  after (TxnChangeSetImpl.deferTxn (workThenDefer failing) ;;
         TxnChangeSetImpl.deferTxn (plain work) ;;
         TxnChangeSetImpl.defer (say "Pushed c!") ;;
         TxnChangeSetImpl.deferFail (say "Called error callback"))
        (TxnChangeSetImpl.new rootCtx (txn (demoAccessor plainTxn))).

(** A context carrier that holds at most one reference, under one key. *)
Definition SlotCtx : Type := option nat.

Definition slot_value (c : SlotCtx) (_ : unit) : option nat := c.

Definition slot_withValue (_ : SlotCtx) (_ : unit) (r : nat) : SlotCtx :=
  Some r.

(** The runner of change sets on that carrier. *)
Definition demoChangeSetRunner : TxnRunner (CsState Log SlotCtx) SlotCtx nat :=
  changeSet Log slot_value slot_withValue tt.

(** The registrations of the test "runs deferFail callbacks", the third
    commit action throwing. *)
Definition demoCalls : list (Call Log SlotCtx) :=
  [Defer (say "Pushed a"); DeferFail (say "Spliced out a");
   Defer (say "Pushed b"); DeferFail (say "Spliced out b");
   Defer (fun _ => throw on_purpose);
   Defer (say "Pushed c"); DeferFail (say "Spliced out c")].

(** Registrations whose commit actions all return. *)
Definition quietCalls : list (Call Log SlotCtx) :=
  [Defer (say "a"); DeferFail (say "undo a"); Defer (say "b")].

(** A context that carries a transaction source and, in its second part,
    the transaction change set of the enclosing run. *)
Definition PairCtx : Type := (DemoCtx * option nat)%type.

Definition pair_value (c : PairCtx) (_ : unit) : option nat := snd c.

Definition pair_withValue (c : PairCtx) (_ : unit) (r : nat) : PairCtx :=
  (fst c, Some r).

(** The demo transaction and its accessor on such contexts. *)
Definition DemoTxn_onPair : Txn Log PairCtx DemoTxn := {|
  commit := fun x _ log =>
    (log ++ ["commit " ++ label x]%string, completes (commitThrows x));
  rollback := fun x _ log =>
    (log ++ ["rollback " ++ label x]%string, completes (rollbackThrows x));
  asTransactable := fun _ => None;
|}.

Definition pairAccessor (x : DemoTxn) : TxnAccessor Log PairCtx DemoTxn := {|
  getTransactable := fun c =>
    if hasSource (fst c)
    then Some {| beginTxn := fun _ _ log =>
                   (log ++ ["begin " ++ label x]%string, Normal x) |}
    else None;
  getTxn := fun c => openTxn (fst c);
  withTxn := fun c y =>
    ({| hasSource := hasSource (fst c); openTxn := Some y |}, snd c);
|}.

Definition workOnPair : TxnCallback Log PairCtx DemoTxn :=
  fun _ x log => (log ++ ["work in " ++ label x]%string, Normal JUndefined).

Definition lateWorkOnPair : TxnCallback Log PairCtx DemoTxn :=
  fun _ x log => (log ++ ["late work in " ++ label x]%string, Normal JUndefined).

(** The registrations of the test "after txn cannot roll back txn": a
    transactional action, then a commit action that throws.  Here the
    transactional action registers a second one while it runs. *)
Definition demoRegistrations
  : list (Registration (S:=Log) (Ctx:=PairCtx) (T:=DemoTxn)) :=
  [RegDeferTxn (Action workOnPair (fun _ _ _ => [plain lateWorkOnPair]));
   RegDefer (fun _ => throw on_purpose);
   RegDefer (say "Pushed c!");
   RegDeferFail (say "Called error callback")].

(** [m] is turned down on [o] by the status guard: it throws the
    already-completed error and changes neither [o] nor the world. *)
Definition rejected {O S A} (m : M (O * S) A) (o : O) : Prop :=
  forall s, m (o, s) = ((o, s), Throw AlreadyCompletedError).

(** * Properties *)

(** ** The action loop *)

Section LoopFacts.
Variables S Ctx : Type.
Implicit Types (c : Ctx) (fns pre post : list (CtxCallback S Ctx))
         (fn : CtxCallback S Ctx) (s : S).

(** The loop of a method over lifted callbacks leaves [this] alone and acts
    on the outside state as [run_all]. *)
Lemma for_of_lift (O : Type) c fns (o : O) s :
  for_of fns (fun fn => lift (fn c)) (o, s)
  = ((o, fst (run_all c fns s)), snd (run_all c fns s)).
Proof.
  revert s. induction fns as [|fn fns IH]; intros s.
  - reflexivity.
  - unfold run_all in *. cbn [for_of].
    assert (E : forall A B (m : M (O * S) A) (k : A -> M (O * S) B) x,
               bind m k x
               = match m x with
                 | (x1, Normal a) => k a x1
                 | (x1, Throw e) => (x1, Throw e)
                 end) by reflexivity.
    rewrite E. unfold bind at 1 2. unfold lift at 1.
    destruct (fn c s) as [s1 [v|e]].
    + apply IH.
    + reflexivity.
Qed.

Lemma run_all_chain c fns s s' :
  chain c fns s s' -> run_all c fns s = (s', Normal tt).
Proof.
  induction 1 as [s|fn fns s v s1 s2 Hfn _ IH].
  - reflexivity.
  - unfold run_all in *. cbn [for_of]. unfold bind. rewrite Hfn. exact IH.
Qed.

(** Once an action throws, the loop stops there: what comes after it in
    the list plays no part. *)
Lemma run_all_throw c pre fn post s s1 s2 e :
  chain c pre s s1 ->
  fn c s1 = (s2, Throw e) ->
  run_all c (pre ++ fn :: post) s = (s2, Throw e).
Proof.
  intros Hpre Hfn. induction Hpre as [s|g gs s v s1 s3 Hg _ IH].
  - unfold run_all. cbn [app for_of]. unfold bind. now rewrite Hfn.
  - unfold run_all in *. cbn [app for_of]. unfold bind. rewrite Hg.
    apply IH, Hfn.
Qed.

(** The loop always ends in one of the two ways. *)
Lemma run_all_cases c fns s :
  (exists s', chain c fns s s' /\ run_all c fns s = (s', Normal tt))
  \/ (exists pre fn post s1 s2 e,
         fns = pre ++ fn :: post /\ chain c pre s s1
         /\ fn c s1 = (s2, Throw e)
         /\ run_all c fns s = (s2, Throw e)).
Proof.
  revert s. induction fns as [|fn fns IH]; intros s.
  - left. exists s. split; [constructor | reflexivity].
  - destruct (fn c s) as [s1 [v|e]] eqn:Hfn.
    + destruct (IH s1) as [(s' & Hc & Hr)|(pre & g & post & sa & sb & e & -> & Hc & Hg & Hr)].
      * left. exists s'. split; [econstructor; eauto|].
        apply run_all_chain. econstructor; eauto.
      * right. exists (fn :: pre), g, post, sa, sb, e.
        repeat split; auto; [econstructor; eauto|].
        change (run_all c ((fn :: pre) ++ g :: post) s = (sb, Throw e)).
        eapply run_all_throw; [econstructor; eauto | auto].
    + right. exists [], fn, fns, s, s1, e.
      repeat split; auto; [constructor|].
      change (run_all c ([] ++ fn :: fns) s = (s1, Throw e)).
      eapply run_all_throw; [constructor | auto].
Qed.
End LoopFacts.

(** ** The loop over the live list of transactional actions *)

Section LiveFacts.
Context {S Ctx T : Type}.
Variables (c : Ctx) (x : T).
Implicit Types (l : Pending S) (s : S) (a : TxnAction S Ctx T)
         (fns rest tail : list (TxnAction S Ctx T)).

Lemma sim_refl l : sim l l.
Proof. induction l as [|k n IH]; cbn; auto. Qed.

Lemma sim_sym l : forall l', sim l l' -> sim l' l.
Proof.
  induction l as [|k n IH]; intros [|k' n']; cbn; auto.
  intros H s. destruct (H s) as [E Hn]. split; [auto|].
  rewrite <- E. auto.
Qed.

Lemma sim_trans l : forall l' l'', sim l l' -> sim l' l'' -> sim l l''.
Proof.
  induction l as [|k n IH]; intros [|k' n'] [|k'' n'']; cbn; auto; try tauto.
  intros H H' s. destruct (H s) as [E Hn]. destruct (H' s) as [E' Hn'].
  split; [congruence|]. intros Hok. apply IH with (n' s); auto.
  apply Hn'. rewrite <- E. exact Hok.
Qed.

(** Lists of pending calls that make the same calls drain alike. *)
Lemma drain_sim l : forall l' s, sim l l' -> drain l s = drain l' s.
Proof.
  induction l as [|k n IH]; intros [|k' n'] s; cbn; auto; try tauto.
  intros H. destruct (H s) as [E Hn]. rewrite <- E.
  destruct (k s) as [s1 [[]|e]]; cbn in *; auto.
Qed.

Lemma bind_ok (k1 k2 : M S unit) s :
  is_ok (snd ((k1 ;; k2) s)) = true ->
  is_ok (snd (k1 s)) = true
  /\ is_ok (snd (k2 (fst (k1 s)))) = true
  /\ fst ((k1 ;; k2) s) = fst (k2 (fst (k1 s))).
Proof.
  unfold bind. destruct (k1 s) as [s1 [[]|e]]; cbn; auto. discriminate.
Qed.

Lemma merge_sim_r l :
  forall l2 l2', sim l2 l2' -> sim (merge l l2) (merge l l2').
Proof.
  induction l as [|k n IH]; intros l2 l2' H; cbn [merge]; auto.
  destruct l2 as [|k2 n2], l2' as [|k2' n2']; cbn in H; try tauto.
  - apply sim_refl.
  - cbn [sim]. intros s. split.
    + unfold bind. destruct (k s) as [s1 [[]|e]]; auto. apply H.
    + intros Hok. apply bind_ok in Hok. destruct Hok as (H1 & H2 & _).
      apply IH. apply H. exact H2.
Qed.

Lemma merge_assoc l1 :
  forall l2 l3, sim (merge (merge l1 l2) l3) (merge l1 (merge l2 l3)).
Proof.
  induction l1 as [|k1 n1 IH]; intros l2 l3; cbn [merge].
  - apply sim_refl.
  - destruct l2 as [|k2 n2]; [cbn [merge]; apply sim_refl|].
    destruct l3 as [|k3 n3]; [cbn [merge]; apply sim_refl|].
    cbn [merge sim]. intros s. split.
    + unfold bind. destruct (k1 s) as [s1 [[]|e]]; auto.
    + intros Hok. apply bind_ok in Hok. destruct Hok as (H1 & H2 & H3).
      apply bind_ok in H1. destruct H1 as (Ha & Hb & Hab).
      rewrite Hab. apply IH.
Qed.

(** The array [fns ++ tail], as the entries of [fns] followed by those of
    [tail]. *)
Lemma pending_app fns :
  forall tail,
    sim (pending c x (fns ++ tail)) (merge (pending c x fns) (pending c x tail)).
Proof.
  induction fns as [|a fns IH]; intros tail; cbn [app pending fold_right merge].
  - apply sim_refl.
  - fold (pending c x (fns ++ tail)). fold (pending c x fns).
    apply sim_trans
      with (merge (pending_of c x a) (merge (pending c x fns) (pending c x tail))).
    + apply merge_sim_r. apply IH.
    + apply sim_sym. apply merge_assoc.
Qed.

(** Draining [l1] followed by [l2]: the first round of [l1] is called, and
    what it adds goes behind [l2]. *)
Lemma drain_merge l1 : forall l2 s,
  drain (merge l1 l2) s
  = match l1 with
    | NoMore => drain l2 s
    | Level k n =>
        match k s with
        | (s1, Normal _) => drain (merge l2 (n s)) s1
        | (s1, Throw e) => (s1, Throw e)
        end
    end.
Proof.
  induction l1 as [|k n IH]; intros l2 s; [reflexivity|].
  destruct l2 as [|k2 n2].
  - cbn [merge drain]. destruct (k s) as [s1 [[]|e]]; reflexivity.
  - cbn [merge drain]. unfold bind at 1.
    destruct (k s) as [s1 [[]|e]] eqn:Ek; [|reflexivity]. cbn [fst].
    destruct (k2 s1) as [s2 [[]|e]] eqn:Ek2.
    + rewrite IH. destruct (n s) as [|k3 n3].
      * cbn [merge drain]. rewrite Ek2. reflexivity.
      * cbn [merge drain]. unfold bind at 1. rewrite Ek2. cbn [fst].
        reflexivity.
    + destruct (n s) as [|k3 n3]; cbn [merge drain].
      * rewrite Ek2. reflexivity.
      * unfold bind at 1. rewrite Ek2. reflexivity.
Qed.

(** The loop on an empty array returns at once. *)
Lemma run_live_nil s : run_live c x [] s = (s, Normal tt).
Proof. reflexivity. Qed.

(** The loop on a live array: the first entry is called; when it throws
    the loop throws; when it returns the loop goes on with the entries
    after it, followed by the entries it has registered. *)
Lemma run_live_cons a rest s :
  run_live c x (a :: rest) s
  = match action_fn a c x s with
    | (s1, Normal _) => run_live c x (rest ++ action_defers a c x s) s1
    | (s1, Throw e) => (s1, Throw e)
    end.
Proof.
  unfold run_live. cbn [pending fold_right]. fold (pending c x rest).
  rewrite drain_merge. destruct a as [fn defers].
  cbn [pending_of action_fn action_defers].
  unfold bind at 1, ret.
  destruct (fn c x s) as [s1 [v|e]]; [|reflexivity].
  fold (pending c x (defers c x s)).
  symmetry. apply drain_sim. apply pending_app.
Qed.

(** The loop, one round at a time: the entries of [fns] are called in
    order; when one throws the loop throws there; when all return the
    loop goes on with what stood behind them, followed by what they have
    registered. *)
Lemma run_live_round fns :
  forall tail s,
    run_live c x (fns ++ tail) s
    = match run_all_txn c x fns s with
      | (s1, Normal _) => run_live c x (tail ++ round_defers c x fns s) s1
      | (s1, Throw e) => (s1, Throw e)
      end.
Proof.
  induction fns as [|a fns IH]; intros tail s.
  - cbn [app run_all_txn for_of ret round_defers]. now rewrite app_nil_r.
  - cbn [app run_all_txn for_of round_defers]. rewrite run_live_cons.
    unfold bind at 1.
    destruct (action_fn a c x s) as [s1 [v|e]]; [|reflexivity].
    rewrite <- app_assoc, IH. cbn [fst]. unfold run_all_txn.
    destruct (for_of fns _ s1) as [s2 [[]|e]]; [|reflexivity].
    now rewrite app_assoc.
Qed.

(** When one of the entries the array has at the start throws, the ones
    before it returning, the loop throws what it threw, in the state it
    left. *)
Lemma run_live_throws fns s s1 e :
  run_all_txn c x fns s = (s1, Throw e) ->
  run_live c x fns s = (s1, Throw e).
Proof.
  intros H. rewrite <- (app_nil_r fns), run_live_round, H. reflexivity.
Qed.

(** When the entries register nothing, the loop is the plain loop over the
    array. *)
Lemma run_live_plain fns :
  (forall a s, In a fns -> action_defers a c x s = []) ->
  forall s, run_live c x fns s = run_all_txn c x fns s.
Proof.
  induction fns as [|a fns IH]; intros Hno s; [reflexivity|].
  rewrite run_live_cons. cbn [run_all_txn for_of]. unfold bind.
  rewrite (Hno a s) by (left; reflexivity). rewrite app_nil_r.
  destruct (action_fn a c x s) as [s1 [v|e]]; [|reflexivity].
  apply IH. intros b s' Hb. apply Hno. now right.
Qed.
End LiveFacts.

(** ** [ChangeSetImpl] *)

Section ChangeSetFacts.
Variables S Ctx : Type.
Import ChangeSetImpl.
Implicit Types (o : ChangeSetImpl.t S Ctx) (s : S)
         (fn : CtxCallback S Ctx).

Lemma checkStatus_open o s :
  done o = false -> checkStatus (o, s) = ((o, s), Normal tt).
Proof. intros H. unfold checkStatus, bind, this. now rewrite H. Qed.

Lemma checkStatus_done o s :
  done o = true -> checkStatus (o, s) = ((o, s), Throw AlreadyCompletedError).
Proof. intros H. unfold checkStatus, bind, this. now rewrite H. Qed.

Lemma defer_open o s fn :
  done o = false -> defer fn (o, s) = ((push_commitFns fn o, s), Normal tt).
Proof. intros H. unfold defer, bind. now rewrite checkStatus_open. Qed.

Lemma defer_done o s fn :
  done o = true -> defer fn (o, s) = ((o, s), Throw AlreadyCompletedError).
Proof. intros H. unfold defer, bind. now rewrite checkStatus_done. Qed.

Lemma deferFail_open o s fn :
  done o = false ->
  deferFail fn (o, s) = ((push_rollbackFns fn o, s), Normal tt).
Proof. intros H. unfold deferFail, bind. now rewrite checkStatus_open. Qed.

Lemma deferFail_done o s fn :
  done o = true -> deferFail fn (o, s) = ((o, s), Throw AlreadyCompletedError).
Proof. intros H. unfold deferFail, bind. now rewrite checkStatus_done. Qed.

Lemma run_commitFns_eq o s :
  run_commitFns (o, s)
  = ((set_ignoreStatus (negb (is_ok (snd (run_all (ctx o) (commitFns o) s)))) o,
      fst (run_all (ctx o) (commitFns o) s)),
     snd (run_all (ctx o) (commitFns o) s)).
Proof.
  unfold run_commitFns, bind, this, try_finally.
  rewrite for_of_lift. reflexivity.
Qed.

Lemma commit_open o s :
  done o = false ->
  commit (o, s)
  = ((committed o (is_ok (snd (run_all (ctx o) (commitFns o) s))),
      fst (run_all (ctx o) (commitFns o) s)),
     snd (run_all (ctx o) (commitFns o) s)).
Proof.
  intros H. unfold commit, bind. rewrite checkStatus_open by assumption.
  unfold update. rewrite run_commitFns_eq. reflexivity.
Qed.

Lemma commit_done o s :
  done o = true -> commit (o, s) = ((o, s), Throw AlreadyCompletedError).
Proof. intros H. unfold commit, bind. now rewrite checkStatus_done. Qed.

Lemma rollback_done o s :
  done o = true -> ignoreStatus o = false ->
  rollback (o, s) = ((o, s), Throw AlreadyCompletedError).
Proof.
  intros Hd Hi. unfold rollback, bind, this. rewrite Hi.
  now rewrite checkStatus_done.
Qed.

(** While a loop of [commit] or [rollback] runs, the set is complete and
    the window shut: every method called on it then is turned down. *)
Lemma calls_during_a_loop_rejected o fn :
  done o = true -> ignoreStatus o = false ->
  rejected (defer fn) o /\ rejected (deferFail fn) o
  /\ rejected commit o /\ rejected rollback o.
Proof.
  intros Hd Hi. repeat split; intros s.
  - now apply defer_done.
  - now apply deferFail_done.
  - now apply commit_done.
  - now apply rollback_done.
Qed.

Lemma rollback_window o s :
  ignoreStatus o = true ->
  rollback (o, s)
  = ((rolledBack o, fst (run_all (ctx o) (rollbackFns o) s)),
     snd (run_all (ctx o) (rollbackFns o) s)).
Proof.
  intros Hi. unfold rollback, bind, this. rewrite Hi. unfold update.
  rewrite for_of_lift. reflexivity.
Qed.

Lemma rollback_open o s :
  done o = false ->
  rollback (o, s)
  = ((rolledBack o, fst (run_all (ctx o) (rollbackFns o) s)),
     snd (run_all (ctx o) (rollbackFns o) s)).
Proof.
  intros Hd. destruct (ignoreStatus o) eqn:Hi.
  - now apply rollback_window.
  - unfold rollback, bind, this. rewrite Hi.
    rewrite checkStatus_open by assumption. unfold update.
    rewrite for_of_lift. unfold rolledBack, set_done, set_ignoreStatus.
    cbn. rewrite Hi. reflexivity.
Qed.
End ChangeSetFacts.

Section ChangeSetClaims.
Variables S Ctx : Type.
Import ChangeSetImpl.
Implicit Types (o : ChangeSetImpl.t S Ctx) (s : S)
         (fn : CtxCallback S Ctx).

Lemma rejected_commit o : done o = true -> rejected (@commit S Ctx) o.
Proof. intros H s. now apply commit_done. Qed.

Lemma rejected_rollback o :
  done o = true -> ignoreStatus o = false -> rejected (@rollback S Ctx) o.
Proof. intros Hd Hi s. now apply rollback_done. Qed.

(** C1. On an open change set, a terminal call makes every further
    [commit] or [rollback] fail with the already-completed error, whatever
    happened in the world in between, with one exception: when [commit]
    itself threw, the next [rollback] passes the guard (it runs the failure
    actions, and returns normally when they do), once: after it [commit]
    and [rollback] are turned down again.  After a [commit] that
    returned, [rollback] is turned down. *)
Theorem terminal_call_at_most_once o s :
  done o = false ->
  let o1 := fst (fst (commit (o, s))) in
  let c1 := snd (commit (o, s)) in
  (* after commit: a second commit never passes *)
  rejected (@commit S Ctx) o1
  (* commit returned: rollback is turned down *)
  /\ (is_ok c1 = true -> rejected (@rollback S Ctx) o1)
  (* commit threw: rollback passes, once *)
  /\ (is_ok c1 = false ->
      forall s1,
        let o2 := fst (fst (rollback (o1, s1))) in
        (snd (fst (rollback (o1, s1))), snd (rollback (o1, s1)))
        = run_all (ctx o) (rollbackFns o) s1
        /\ (forall s2, chain (ctx o) (rollbackFns o) s1 s2 ->
                       rollback (o1, s1) = ((o2, s2), Normal tt))
        /\ rejected (@rollback S Ctx) o2
        /\ rejected (@commit S Ctx) o2)
  (* a rollback of the open set is terminal as well *)
  /\ (let o1' := fst (fst (rollback (o, s))) in
      rejected (@rollback S Ctx) o1' /\ rejected (@commit S Ctx) o1').
Proof.
  intros Hopen. cbn zeta. rewrite commit_open by assumption. cbn [fst snd].
  set (c1 := snd (run_all (ctx o) (commitFns o) s)).
  assert (Hw : forall b, ignoreStatus (committed o b) = negb b)
    by reflexivity.
  assert (Hd : forall b, done (committed o b) = true) by reflexivity.
  split; [now apply rejected_commit|].
  split.
  { intros Hok. apply rejected_rollback; [apply Hd|].
    rewrite Hw, Hok. reflexivity. }
  split.
  - intros Hko s1.
    rewrite rollback_window by (rewrite Hw, Hko; reflexivity).
    cbn [fst snd].
    change (ctx (committed o (is_ok c1))) with (ctx o).
    change (rollbackFns (committed o (is_ok c1))) with (rollbackFns o).
    split; [now destruct (run_all (ctx o) (rollbackFns o) s1)|].
    split; [intros s2 Hc; now rewrite (run_all_chain Hc)|].
    split; [now apply rejected_rollback | now apply rejected_commit].
  - rewrite rollback_open by assumption. cbn [fst snd].
    split; [now apply rejected_rollback | now apply rejected_commit].
Qed.

(** C2 (amended). A [rollback] that passes the guard calls the failure
    actions in registration order, each from the state the previous one
    left, up to and including the first one that throws: when all return,
    [rollback] returns in the state the last one left; when one throws,
    the failure actions registered after it are not called and [rollback]
    throws what it threw. *)
Theorem rollback_runs_until_first_throw o s :
  done o = false \/ ignoreStatus o = true ->
  (forall s', chain (ctx o) (rollbackFns o) s s' ->
              rollback (o, s) = ((rolledBack o, s'), Normal tt))
  /\ (forall pre fn post s1 s2 e,
         rollbackFns o = pre ++ fn :: post ->
         chain (ctx o) pre s s1 ->
         fn (ctx o) s1 = (s2, Throw e) ->
         rollback (o, s) = ((rolledBack o, s2), Throw e)
         /\ forall post',
             run_all (ctx o) (pre ++ fn :: post') s
             = run_all (ctx o) (rollbackFns o) s).
Proof.
  intros Hperm.
  assert (E : rollback (o, s)
              = ((rolledBack o, fst (run_all (ctx o) (rollbackFns o) s)),
                 snd (run_all (ctx o) (rollbackFns o) s))).
  { destruct Hperm; [now apply rollback_open | now apply rollback_window]. }
  split.
  - intros s' Hc. rewrite E, (run_all_chain Hc). reflexivity.
  - intros pre fn post s1 s2 e Hfns Hc Hfn. split.
    + rewrite E, Hfns, (run_all_throw fn post Hc Hfn). reflexivity.
    + intros post'.
      rewrite Hfns, (run_all_throw fn post Hc Hfn).
      apply (run_all_throw fn post' Hc Hfn).
Qed.

(** Registering with [defer] on an open set, in the order of [fns]. *)
Lemma for_of_defer fns o s :
  done o = false ->
  exists o',
    for_of fns (@defer S Ctx) (o, s) = ((o', s), Normal tt)
    /\ commitFns o' = commitFns o ++ fns
    /\ rollbackFns o' = rollbackFns o
    /\ ctx o' = ctx o /\ done o' = false
    /\ ignoreStatus o' = ignoreStatus o.
Proof.
  revert o. induction fns as [|fn fns IH]; intros o Hopen.
  - exists o. rewrite app_nil_r. repeat split; auto.
  - cbn [for_of]. unfold bind. rewrite defer_open by assumption.
    destruct (IH (push_commitFns fn o) Hopen)
      as (o' & Hrun & Hc & Hr & Hx & Hd & Hi).
    exists o'. rewrite Hrun. repeat split; auto.
    rewrite Hc. cbn. now rewrite <- app_assoc.
Qed.

Lemma for_of_deferFail fns o s :
  done o = false ->
  exists o',
    for_of fns (@deferFail S Ctx) (o, s) = ((o', s), Normal tt)
    /\ commitFns o' = commitFns o
    /\ rollbackFns o' = rollbackFns o ++ fns
    /\ ctx o' = ctx o /\ done o' = false
    /\ ignoreStatus o' = ignoreStatus o.
Proof.
  revert o. induction fns as [|fn fns IH]; intros o Hopen.
  - exists o. rewrite app_nil_r. repeat split; auto.
  - cbn [for_of]. unfold bind. rewrite deferFail_open by assumption.
    destruct (IH (push_rollbackFns fn o) Hopen)
      as (o' & Hrun & Hc & Hr & Hx & Hd & Hi).
    exists o'. rewrite Hrun. repeat split; auto.
    rewrite Hr. cbn. now rewrite <- app_assoc.
Qed.

(** C4. On an open change set: [defer] only appends the action after the
    ones registered before it and calls nothing (the world is unchanged);
    [commit] first marks the set complete, so that the action loop runs on
    a set on which [defer], [deferFail] and [commit] are turned down, and
    the set stays complete however the loop ends; the loop calls the
    commit actions in registration order, each from the state the previous
    one left; when all return, [commit] returns; when one throws, the
    actions registered after it are not called and [commit] throws what it
    threw. *)
Theorem commit_runs_in_registration_order o s :
  done o = false ->
  (* defer registers, in order, and runs nothing *)
  (forall fn, defer fn (o, s) = ((push_commitFns fn o, s), Normal tt)
              /\ commitFns (push_commitFns fn o) = commitFns o ++ [fn])
  (* the set is marked before the loop *)
  /\ commit (o, s) = run_commitFns (set_done true o, s)
  /\ (forall fn, rejected (defer fn) (set_done true o)
                 /\ rejected (deferFail fn) (set_done true o))
  /\ rejected (@commit S Ctx) (set_done true o)
  /\ done (fst (fst (commit (o, s)))) = true
  (* every action returns *)
  /\ (forall s', chain (ctx o) (commitFns o) s s' ->
                 commit (o, s) = ((committed o true, s'), Normal tt))
  (* an action throws *)
  /\ (forall pre fn post s1 s2 e,
         commitFns o = pre ++ fn :: post ->
         chain (ctx o) pre s s1 ->
         fn (ctx o) s1 = (s2, Throw e) ->
         commit (o, s) = ((committed o false, s2), Throw e)
         /\ forall post',
             run_all (ctx o) (pre ++ fn :: post') s
             = run_all (ctx o) (commitFns o) s).
Proof.
  intros Hopen.
  split; [intros fn; split; [now apply defer_open | reflexivity]|].
  split.
  { unfold commit, bind. rewrite checkStatus_open by assumption.
    reflexivity. }
  split.
  { intros fn. split; intros s'.
    - now apply defer_done.
    - now apply deferFail_done. }
  split; [now apply rejected_commit|].
  split; [rewrite commit_open by assumption; reflexivity|].
  split.
  - intros s' Hc. rewrite commit_open by assumption.
    rewrite (run_all_chain Hc). reflexivity.
  - intros pre fn post s1 s2 e Hfns Hc Hfn. split.
    + rewrite commit_open by assumption.
      rewrite Hfns, (run_all_throw fn post Hc Hfn). reflexivity.
    + intros post'.
      rewrite Hfns, (run_all_throw fn post Hc Hfn).
      apply (run_all_throw fn post' Hc Hfn).
Qed.

End ChangeSetClaims.

(** ** The context the deferred callbacks are called with *)

Section CreationContext.
Context {S Ctx : Type}.
Import ChangeSetImpl.
Implicit Types (pre post : list (CtxCallback S Ctx)) (fn : CtxCallback S Ctx)
         (s : S).

(** The set [csBuilder.beginTxn(c)] makes, after [fns] have been given to
    [defer] and [ffns] to [deferFail]. *)
Lemma registered_on_fresh_set (W : Type) (c : Ctx)
      (fns ffns : list (CtxCallback W Ctx)) (w : W) :
  exists o,
    (for_of fns (@defer W Ctx) ;; for_of ffns (@deferFail W Ctx))
      (csBuilder_beginTxn W c, w) = ((o, w), Normal tt)
    /\ ctx o = c /\ commitFns o = fns /\ rollbackFns o = ffns
    /\ done o = false.
Proof.
  destruct (@for_of_defer W Ctx fns (csBuilder_beginTxn W c) w eq_refl)
    as (o1 & Hrun1 & Hc1 & Hr1 & Hx1 & Hd1 & Hi1).
  destruct (@for_of_deferFail W Ctx ffns o1 w Hd1)
    as (o2 & Hrun2 & Hc2 & Hr2 & Hx2 & Hd2 & Hi2).
  exists o2. unfold bind at 1. rewrite Hrun1, Hrun2.
  split; [reflexivity|].
  split; [rewrite Hx2, Hx1; reflexivity|].
  split; [rewrite Hc2, Hc1; reflexivity|].
  split; [rewrite Hr2, Hr1; reflexivity | exact Hd2].
Qed.

(** Actions that note their context behave as the actions themselves, and
    note the context of each call. *)
Lemma recording_chain (c : Ctx) (fns : list (CtxCallback S Ctx)) s s' :
  chain c fns s s' ->
  forall seen,
    chain c (map (@recording S Ctx) fns) (seen, s)
          (seen ++ repeat c (List.length fns), s').
Proof.
  induction 1 as [s|fn fns s v s1 s2 Hfn Hc IH]; intros seen.
  - cbn. rewrite app_nil_r. apply chain_nil.
  - cbn [map List.length repeat].
    apply chain_cons with (v := v) (s1 := (seen ++ [c], s1)).
    + unfold recording. now rewrite Hfn.
    + specialize (IH (seen ++ [c])). now rewrite <- app_assoc in IH.
Qed.

Lemma recording_throw (c : Ctx) (fn : CtxCallback S Ctx) s s1 e seen :
  fn c s = (s1, Throw e) ->
  recording fn c (seen, s) = ((seen ++ [c], s1), Throw e).
Proof. intros H. unfold recording. now rewrite H. Qed.

(** C10. A change set made by [csBuilder.beginTxn(c)] calls its deferred
    callbacks on [c], whatever context is passed to [commit] or [rollback]
    at the call ([arg]; the methods declare no parameter).  For any commit
    actions [fns] and failure actions [ffns] registered on it: [commit]
    calls the commit actions in order on [c] (when they all return on [c],
    it returns in the state the last one left; when one throws on [c], it
    throws that in the state it left), and [rollback] does the same with
    the failure actions.  When the actions are made to note the context
    they are given, what is noted is [c], once for each action called. *)
Theorem callbacks_get_creation_context (c : Ctx) (arg : option Ctx)
        (fns ffns : list (CtxCallback S Ctx)) (s : S) :
  exists (o : ChangeSetImpl.t S Ctx)
         (o' : ChangeSetImpl.t (list Ctx * S) Ctx),
    (* the actions as they are *)
    (for_of fns (@defer S Ctx) ;; for_of ffns (@deferFail S Ctx))
      (csBuilder_beginTxn S c, s) = ((o, s), Normal tt)
    /\ (forall s', chain c fns s s' ->
                   commit_with arg (o, s)
                   = ((committed o true, s'), Normal tt))
    /\ (forall pre fn post s1 s2 e,
           fns = pre ++ fn :: post ->
           chain c pre s s1 ->
           fn c s1 = (s2, Throw e) ->
           commit_with arg (o, s) = ((committed o false, s2), Throw e))
    /\ (forall s', chain c ffns s s' ->
                   rollback_with arg (o, s)
                   = ((rolledBack o, s'), Normal tt))
    /\ (forall pre fn post s1 s2 e,
           ffns = pre ++ fn :: post ->
           chain c pre s s1 ->
           fn c s1 = (s2, Throw e) ->
           rollback_with arg (o, s) = ((rolledBack o, s2), Throw e))
    (* the actions made to note the context they are given *)
    /\ (for_of (map (@recording S Ctx) fns) (@defer (list Ctx * S) Ctx) ;;
        for_of (map (@recording S Ctx) ffns) (@deferFail (list Ctx * S) Ctx))
         (csBuilder_beginTxn (list Ctx * S) c, ([], s))
       = ((o', ([], s)), Normal tt)
    /\ (forall s', chain c fns s s' ->
                   commit_with arg (o', ([], s))
                   = ((committed o' true,
                       (repeat c (List.length fns), s')), Normal tt))
    /\ (forall pre fn post s1 s2 e,
           fns = pre ++ fn :: post ->
           chain c pre s s1 ->
           fn c s1 = (s2, Throw e) ->
           commit_with arg (o', ([], s))
           = ((committed o' false,
               (repeat c (List.length pre + 1), s2)), Throw e))
    /\ (forall s', chain c ffns s s' ->
                   rollback_with arg (o', ([], s))
                   = ((rolledBack o',
                       (repeat c (List.length ffns), s')), Normal tt))
    /\ (forall pre fn post s1 s2 e,
           ffns = pre ++ fn :: post ->
           chain c pre s s1 ->
           fn c s1 = (s2, Throw e) ->
           rollback_with arg (o', ([], s))
           = ((rolledBack o',
               (repeat c (List.length pre + 1), s2)), Throw e)).
Proof.
  destruct (registered_on_fresh_set c fns ffns s)
    as (o & Hreg & Hx & Hc & Hr & Hd).
  destruct (registered_on_fresh_set c (map (@recording S Ctx) fns)
              (map (@recording S Ctx) ffns) ([] : list Ctx, s))
    as (o' & Hreg' & Hx' & Hc' & Hr' & Hd').
  exists o, o'. unfold commit_with, rollback_with.
  assert (Hthrow : forall pre fn post s1 s2 e,
             chain c pre s s1 -> fn c s1 = (s2, Throw e) ->
             run_all c (map (@recording S Ctx) (pre ++ fn :: post)) ([], s)
             = ((repeat c (List.length pre + 1), s2), Throw e)).
  { intros pre fn post s1 s2 e Hch Hfn.
    rewrite map_app. cbn [map].
    rewrite (run_all_throw (recording fn) (map (@recording S Ctx) post)
               (recording_chain Hch [])
               (@recording_throw c fn s1 s2 e
                  (repeat c (List.length pre)) Hfn)).
    cbn [app]. now rewrite repeat_app. }
  split; [exact Hreg|].
  split.
  { intros s' Hch. rewrite commit_open by assumption.
    rewrite Hx, Hc, (run_all_chain Hch). reflexivity. }
  split.
  { intros pre fn post s1 s2 e Hfns Hch Hfn.
    rewrite commit_open by assumption.
    rewrite Hx, Hc, Hfns, (run_all_throw fn post Hch Hfn). reflexivity. }
  split.
  { intros s' Hch. rewrite rollback_open by assumption.
    rewrite Hx, Hr, (run_all_chain Hch). reflexivity. }
  split.
  { intros pre fn post s1 s2 e Hfns Hch Hfn.
    rewrite rollback_open by assumption.
    rewrite Hx, Hr, Hfns, (run_all_throw fn post Hch Hfn). reflexivity. }
  split; [exact Hreg'|].
  split.
  { intros s' Hch. rewrite commit_open by assumption.
    rewrite Hx', Hc', (run_all_chain (recording_chain Hch [])).
    reflexivity. }
  split.
  { intros pre fn post s1 s2 e Hfns Hch Hfn.
    rewrite commit_open by assumption.
    rewrite Hx', Hc', Hfns, (Hthrow pre fn post s1 s2 e Hch Hfn).
    reflexivity. }
  split.
  { intros s' Hch. rewrite rollback_open by assumption.
    rewrite Hx', Hr', (run_all_chain (recording_chain Hch [])).
    reflexivity. }
  intros pre fn post s1 s2 e Hfns Hch Hfn.
  rewrite rollback_open by assumption.
  rewrite Hx', Hr', Hfns, (Hthrow pre fn post s1 s2 e Hch Hfn).
  reflexivity.
Qed.
End CreationContext.

(** ** [TxnRunnerImpl] *)

Section RunnerClaims.
Context {S Ctx T : Type} {ops : Txn S Ctx T}.
Import TxnRunnerImpl.
Implicit Types (self : TxnRunnerImpl.t S Ctx T) (ctx : Ctx) (s : S)
         (a : FnOrOpts S Ctx T) (mf : option (TxnCallback S Ctx T))
         (fn : TxnCallback S Ctx T) (x : T) (e : JsVal).

(** The probe of [run]: [isTransactable(x)] holds exactly when [x] can be
    taken as a transaction source. *)
Lemma isTransactable_false x :
  isTransactable x = false <-> asTransactable x = None.
Proof.
  unfold isTransactable. destruct (asTransactable x); split; congruence.
Qed.

Lemma try_block_throws_bind self ctx fn x s0 s1 e :
  try_block_throws self ctx fn x s0 s1 e ->
  (fn (_withTxn self ctx x) x ;; commit x None) s0 = (s1, Throw e).
Proof.
  unfold bind. intros [H|(v & s' & H & Hc)]; rewrite H; [reflexivity|exact Hc].
Qed.

(** What [run] does after its [try] block threw [e] in [s1]: it runs
    [rollback] from [s1] and ends in the state [rollback] leaves, throwing
    what [rollback] threw if it did, else the transaction-failed error. *)
Lemma run_after_throw self ctx a mf s src opts fn x s0 s1 e :
  run_checks self ctx a mf = inr (src, opts, fn) ->
  beginTxn src ctx opts s = (s0, Normal x) ->
  try_block_throws self ctx fn x s0 s1 e ->
  run self ctx a mf s
  = (fst (rollback x None s1),
     match snd (rollback x None s1) with
     | Normal _ => Throw (TransactionFailed e)
     | Throw r => Throw r
     end).
Proof.
  intros Hchk Hbegin Htry. unfold run. rewrite Hchk.
  unfold run_txn. unfold bind at 1. rewrite Hbegin.
  unfold try_catch. rewrite (try_block_throws_bind Htry).
  unfold bind, throw. now destruct (rollback x None s1) as [s2 [[]|r]].
Qed.

(** C5. When the callback of a [run] that passed its checks throws [e], or
    returns and [commit] throws [e], the runner rolls the transaction back
    and, the rollback done, throws the transaction-failed error in the
    state the rollback left.  An [Error] is kept as the cause and its
    string form follows "Transaction failed: " in the message; any other
    value that is not [null] or [undefined] is stringified into the
    message and there is no cause; for [null] and [undefined] the message
    is bare and there is no cause. *)
Theorem failure_rolls_back_then_throws self ctx a mf s src opts fn x s0 s1 s2 e :
  run_checks self ctx a mf = inr (src, opts, fn) ->
  beginTxn src ctx opts s = (s0, Normal x) ->
  try_block_throws self ctx fn x s0 s1 e ->
  rollback x None s1 = (s2, Normal tt) ->
  run self ctx a mf s = (s2, Throw (TransactionFailed e))
  /\ (instanceof_Error e = true ->
      TransactionFailed e
      = new_Error ("Transaction failed: " ++ ToString e)%string e)
  /\ (instanceof_Error e = false -> not_nullish e = true ->
      TransactionFailed e
      = new_Error ("Transaction failed: " ++ ToString e)%string JUndefined)
  /\ (not_nullish e = false ->
      TransactionFailed e = new_Error "Transaction failed" JUndefined).
Proof.
  intros Hchk Hbegin Htry Hrb. split.
  - rewrite (run_after_throw _ _ _ Hchk Hbegin Htry), Hrb. reflexivity.
  - unfold TransactionFailed.
    split; [|split]; destruct e; cbn; intros; try discriminate; reflexivity.
Qed.

(** C9. When the callback of a [run] that passed its checks throws [e], or
    returns and [commit] throws [e], [rollback] is run from the state of
    the failure and [run] ends in the state [rollback] leaves: the error is
    built after the rollback.  When the rollback itself throws [r], [run]
    throws [r], the very value, whatever [e] was: no transaction-failed
    error is thrown and [e] is reported nowhere. *)
Theorem rollback_error_replaces_failure self ctx a mf s src opts fn x s0 s1 e :
  run_checks self ctx a mf = inr (src, opts, fn) ->
  beginTxn src ctx opts s = (s0, Normal x) ->
  try_block_throws self ctx fn x s0 s1 e ->
  fst (run self ctx a mf s) = fst (rollback x None s1)
  /\ (forall s2, rollback x None s1 = (s2, Normal tt) ->
                 run self ctx a mf s = (s2, Throw (TransactionFailed e)))
  /\ (forall s2 r, rollback x None s1 = (s2, Throw r) ->
                   run self ctx a mf s = (s2, Throw r)).
Proof.
  intros Hchk Hbegin Htry.
  rewrite (run_after_throw _ _ _ Hchk Hbegin Htry).
  split; [reflexivity|]. split.
  - intros s2 H. rewrite H. reflexivity.
  - intros s2 r H. rewrite H. reflexivity.
Qed.

(** C6. The checks of [run], each with the ones before it passed.  When
    the accessor finds no transaction source on the context, [run] throws
    the configuration error.  With a source: when no callback is supplied
    it throws the missing-callback error; with a callback, when the context
    carries a transaction that cannot begin transactions, it throws the
    nested-transaction error, and when the context carries one that can,
    [run] is the transaction part run on that transaction as the source,
    whatever source the accessor found.  A check that fails leaves the
    state as it was: nothing was begun. *)
Theorem run_checks_its_arguments self ctx a mf s :
  (_getTransactable self ctx = None ->
   run self ctx a mf s = (s, Throw ConfigurationError))
  /\ (forall src,
         _getTransactable self ctx = Some src ->
         fst (resolve a mf) = None ->
         run self ctx a mf s = (s, Throw MissingCallbackError))
  /\ (forall src fn x,
         _getTransactable self ctx = Some src ->
         fst (resolve a mf) = Some fn ->
         _getTxn self ctx = Some x ->
         asTransactable x = None ->
         run self ctx a mf s = (s, Throw NestedTransactionError))
  /\ (forall src fn x nested,
         _getTransactable self ctx = Some src ->
         fst (resolve a mf) = Some fn ->
         _getTxn self ctx = Some x ->
         asTransactable x = Some nested ->
         run self ctx a mf s
         = run_txn self nested ctx (snd (resolve a mf)) fn s
         /\ run_txn self nested ctx (snd (resolve a mf)) fn s
            = (y <- beginTxn nested ctx (snd (resolve a mf)) ;;
               try_catch
                 (fn (_withTxn self ctx y) y ;; commit y None)
                 (fun e => rollback y None ;; throw (TransactionFailed e))) s).
Proof.
  unfold run, run_checks.
  destruct (resolve a mf) as [f opts]. cbn [fst snd].
  split; [intros ->; reflexivity|].
  split; [intros src -> ->; reflexivity|].
  split.
  - intros src fn x -> -> -> ->. reflexivity.
  - intros src fn x nested -> -> -> ->. split; reflexivity.
Qed.

Lemma run_resolve self ctx a mf a' mf' :
  resolve a mf = resolve a' mf' -> run self ctx a mf = run self ctx a' mf'.
Proof. intros H. unfold run, run_checks. now rewrite H. Qed.

(** C7. On a context that carries a transaction [x], [in] is the callback
    called on that very context and on [x]: it ends in the state the
    callback leaves and throws what the callback throws; nothing else
    runs, so it is the same whatever [commit], [rollback] and [beginTxn]
    would do.  On a context that carries none, [in] is [run] on the same
    arguments, with options or without. *)
Theorem in_joins_or_runs self ctx a mf s :
  (forall x fn,
      _getTxn self ctx = Some x ->
      fst (resolve a mf) = Some fn ->
      in_ self ctx a mf s
      = (fst (fn ctx x s),
         match snd (fn ctx x s) with
         | Normal _ => Normal tt
         | Throw e => Throw e
         end)
      /\ forall ops' : Txn S Ctx T,
          @in_ S Ctx T ops' self ctx a mf s = in_ self ctx a mf s)
  /\ (_getTxn self ctx = None ->
      in_ self ctx a mf = run self ctx a mf).
Proof.
  split.
  - intros x fn Hx Hfn. unfold in_.
    destruct (resolve a mf) as [f opts]. cbn in Hfn. subst f.
    rewrite Hx. unfold call, bind, ret.
    split; [now destruct (fn ctx x s) as [s1 [v|e]] | reflexivity].
  - intros Hx. unfold in_.
    destruct (resolve a mf) as [f opts] eqn:Hr. rewrite Hx.
    destruct opts as [o|].
    + apply run_resolve. rewrite Hr.
      destruct a; cbn in Hr |- *; congruence.
    + apply run_resolve. rewrite Hr.
      destruct a; cbn in Hr; try discriminate;
        destruct f; cbn; congruence.
Qed.
End RunnerClaims.

(** ** [TxnChangeSetImpl] *)

Section TxnChangeSetClaims.
Variables S Ctx T : Type.
Import TxnChangeSetImpl.
Implicit Types (o : TxnChangeSetImpl.t S Ctx T) (s : S).

Lemma inherited_done_rejected A (m : M (ChangeSetImpl.t S Ctx * S) A) o :
  rejected m (super o) -> rejected (inherited (T:=T) m) o.
Proof.
  intros H s. unfold inherited. rewrite H. now destruct o.
Qed.

(** On a completed set the inherited [defer] and [deferFail] are turned
    down. *)
Lemma defer_completed o fn :
  ChangeSetImpl.done (super o) = true ->
  rejected (defer (T:=T) fn) o /\ rejected (deferFail (T:=T) fn) o.
Proof.
  intros H. split; apply inherited_done_rejected; intros s.
  - now apply defer_done.
  - now apply deferFail_done.
Qed.

(** [deferTxn] has no status check: on every set, complete or not, it
    appends the callback and returns. *)
Lemma deferTxn_always_accepts o s fn :
  deferTxn fn (o, s) = ((push_commitTxn fn o, s), Normal tt).
Proof. reflexivity. Qed.

(** C8. On a transaction change set with no transactional action,
    [commit] is the inherited [commit] of [ChangeSetImpl] on the inherited
    fields: the guard, the mark, and the commit actions.  The runner it
    holds is not run: with any other runner in its place, [commit] acts on
    the world and completes in the same way, so no transaction is begun on
    the runner's source. *)
Theorem commit_without_deferTxn o s :
  _commitTxn o = [] ->
  commit (o, s) = inherited (T:=T) (@ChangeSetImpl.commit S Ctx) (o, s)
  /\ forall runner' : TxnRunner S Ctx T,
      let o' := {| super := super o;
                   _commitTxn := _commitTxn o;
                   _txnRunner := runner' |} in
      snd (fst (commit (o', s))) = snd (fst (commit (o, s)))
      /\ snd (commit (o', s)) = snd (commit (o, s))
      /\ super (fst (fst (commit (o', s)))) = super (fst (fst (commit (o, s)))).
Proof.
  intros Hnil. destruct o as [b fns r]. cbn in Hnil. subst fns.
  cbn [super _commitTxn].
  assert (E : forall r0,
             commit ({| super := b; _commitTxn := []; _txnRunner := r0 |}, s)
             = inherited (T:=T) (@ChangeSetImpl.commit S Ctx)
                 ({| super := b; _commitTxn := []; _txnRunner := r0 |}, s)).
  { intros r0.
    unfold commit, checkStatus, ChangeSetImpl.commit, inherited, bind.
    cbn [super _commitTxn _txnRunner].
    destruct (ChangeSetImpl.checkStatus (b, s)) as [[b1 s1] [[]|e]];
      [|reflexivity].
    cbn. destruct (try_finally _ _ _) as [[b2 s2] c2].
    reflexivity. }
  split; [apply E|].
  intros runner'. cbn zeta. rewrite (E r), (E runner').
  unfold inherited. cbn [super].
  destruct (ChangeSetImpl.commit (b, s)) as [[b1 s1] c1]. now cbn.
Qed.
End TxnChangeSetClaims.

(** * The model at work on concrete sets and runners *)

Example isolation_levels :
  map IsolationLevel_value
      [default; readUncommitted; readCommitted; writeCommitted;
       repeatableRead; snapshot; serializable; linearizable]
  = [1; 2; 3; 4; 5; 6; 7; 8].
Proof. reflexivity. Qed.

(** The test "runs deferFail callbacks": the commit throws at the third
    action, and the rollback that follows runs the three undo actions. *)
Example demo_commit_then_rollback :
  ChangeSetImpl.commit (demoChangeSet, [])
  = ((ChangeSetImpl.committed demoChangeSet false,
      ["Pushed a"; "Pushed b"]), Throw on_purpose)
  /\ snd (fst ((ChangeSetImpl.commit ;; ChangeSetImpl.rollback)
                 (demoChangeSet, [])))
     = ["Pushed a"; "Pushed b"]
  /\ snd (fst (ChangeSetImpl.rollback
                 (ChangeSetImpl.committed demoChangeSet false,
                  ["Pushed a"; "Pushed b"])))
     = ["Pushed a"; "Pushed b";
        "Spliced out a"; "Spliced out b"; "Spliced out c"].
Proof. repeat split. Qed.

(** The runner test "handles throw non-error", on the three thrown values. *)
Example transaction_failed_messages :
  TransactionFailed (new_Error "I am a real error" JUndefined)
  = JError "Error" "Transaction failed: Error: I am a real error"
           (new_Error "I am a real error" JUndefined)
  /\ TransactionFailed (JString "Not an error object")
     = JError "Error" "Transaction failed: Not an error object" JUndefined
  /\ TransactionFailed JNull = JError "Error" "Transaction failed" JUndefined.
Proof. repeat split. Qed.

(** A run that commits, and a nested run on a transaction that allows it. *)
Example demo_run_commits :
  TxnRunnerImpl.run (TxnRunnerImpl.new (demoAccessor plainTxn)) rootCtx
                    (ArgFn work) None []
  = (["begin t"; "work in t"; "commit t"], Normal tt)
  /\ TxnRunnerImpl.run (TxnRunnerImpl.new (demoAccessor plainTxn))
                       (carrying nestableTxn) (ArgFn work) None []
     = (["begin outer.child"; "work in outer.child"; "commit outer.child"],
        Normal tt).
Proof. split; reflexivity. Qed.

(** * The claims on concrete inputs *)

(** C1 on the change set of the tests: its commit throws, the rollback that
    follows passes the guard and runs the undo actions, and after it both
    terminal calls are turned down. *)
Lemma terminal_call_at_most_once_witness :
  ChangeSetImpl.done demoChangeSet = false
  /\ is_ok (snd (ChangeSetImpl.commit (demoChangeSet, []))) = false
  /\ (let o1 := fst (fst (ChangeSetImpl.commit (demoChangeSet, []))) in
      let s1 := ["Pushed a"; "Pushed b"] in
      let o2 := fst (fst (ChangeSetImpl.rollback (o1, s1))) in
      rejected ChangeSetImpl.commit o1
      /\ ChangeSetImpl.rollback (o1, s1)
         = ((o2, ["Pushed a"; "Pushed b";
                  "Spliced out a"; "Spliced out b"; "Spliced out c"]),
            Normal tt)
      /\ rejected ChangeSetImpl.rollback o2
      /\ rejected ChangeSetImpl.commit o2).
Proof.
  split; [reflexivity|]. split; [reflexivity|].
  destruct (@terminal_call_at_most_once Log string demoChangeSet [] eq_refl)
    as (Hcommit & _ & Hwindow & _).
  destruct (Hwindow eq_refl ["Pushed a"; "Pushed b"])
    as (_ & Hrun & Hrollback & Hcommit2).
  cbn zeta. split; [exact Hcommit|]. split; [|split; assumption].
  apply Hrun.
  repeat (eapply chain_cons; [reflexivity|]). apply chain_nil.
Defined.

(** C2, as stated, fails on [failingCleanup]: its first failure action
    throws, and the second, registered after it, is not called; [rollback]
    throws what the first one threw. *)
Lemma raising_failure_action_stops_rollback :
  ChangeSetImpl.done failingCleanup = false
  /\ ChangeSetImpl.rollbackFns failingCleanup
     = [say_throw "failed1" on_purpose; say "failed2"]
  /\ ChangeSetImpl.rollback (failingCleanup, [])
     = ((ChangeSetImpl.rolledBack failingCleanup, ["failed1"]),
        Throw on_purpose)
  /\ ~ In "failed2" (snd (fst (ChangeSetImpl.rollback (failingCleanup, [])))).
Proof.
  repeat split. cbn. intros [H|[]]. discriminate H.
Qed.

Lemma rollback_runs_until_first_throw_witness :
  (ChangeSetImpl.done failingCleanup = false
   \/ ChangeSetImpl.ignoreStatus failingCleanup = true)
  /\ ChangeSetImpl.rollback (failingCleanup, [])
     = ((ChangeSetImpl.rolledBack failingCleanup, ["failed1"]),
        Throw on_purpose).
Proof.
  split; [left; reflexivity|].
  apply (proj2 (@rollback_runs_until_first_throw Log string failingCleanup []
                  (or_introl eq_refl))
               [] (say_throw "failed1" on_purpose) [say "failed2"]
               [] ["failed1"] on_purpose).
  - reflexivity.
  - apply chain_nil.
  - reflexivity.
Defined.

Lemma commit_runs_in_registration_order_witness :
  ChangeSetImpl.done demoChangeSet = false
  /\ ChangeSetImpl.commit (demoChangeSet, [])
     = ((ChangeSetImpl.committed demoChangeSet false,
         ["Pushed a"; "Pushed b"]), Throw on_purpose).
Proof.
  split; [reflexivity|].
  destruct (@commit_runs_in_registration_order Log string demoChangeSet []
              eq_refl) as (_ & _ & _ & _ & _ & _ & Hthrow).
  apply (Hthrow [say "Pushed a"; say "Pushed b"] (fun _ => throw on_purpose)
                [say "Pushed c"] ["Pushed a"; "Pushed b"]
                ["Pushed a"; "Pushed b"] on_purpose).
  - reflexivity.
  - repeat (eapply chain_cons; [reflexivity|]). apply chain_nil.
  - reflexivity.
Defined.

(** C3 on a transaction change set whose [commit] has completed: [defer]
    and [deferFail] are turned down, and [deferTxn] appends the callback and
    returns. *)
Theorem deferTxn_accepted_on_completed_set :
  ChangeSetImpl.done (TxnChangeSetImpl.super completedTxnChangeSet) = true
  /\ TxnChangeSetImpl.defer (T:=DemoTxn) (say "late")
                            (completedTxnChangeSet, [])
     = ((completedTxnChangeSet, []), Throw AlreadyCompletedError)
  /\ TxnChangeSetImpl.deferFail (T:=DemoTxn) (say "late")
                                (completedTxnChangeSet, [])
     = ((completedTxnChangeSet, []), Throw AlreadyCompletedError)
  /\ TxnChangeSetImpl.deferTxn (plain work) (completedTxnChangeSet, [])
     = ((TxnChangeSetImpl.push_commitTxn (plain work) completedTxnChangeSet, []),
        Normal tt)
  /\ TxnChangeSetImpl._commitTxn
       (fst (fst (TxnChangeSetImpl.deferTxn (plain work)
                    (completedTxnChangeSet, []))))
     = [plain work].
Proof. repeat split. Qed.

Lemma failure_rolls_back_then_throws_witness :
  let self := TxnRunnerImpl.new (demoAccessor plainTxn) in
  TxnRunnerImpl.run_checks self rootCtx (ArgFn failing) None
  = inr (demoSource plainTxn, None, failing)
  /\ beginTxn (demoSource plainTxn) rootCtx None [] = (["begin t"], Normal plainTxn)
  /\ TxnRunnerImpl.try_block_throws self rootCtx failing plainTxn
       ["begin t"] ["begin t"] on_purpose
  /\ rollback plainTxn None ["begin t"] = (["begin t"; "rollback t"], Normal tt)
  /\ TxnRunnerImpl.run self rootCtx (ArgFn failing) None []
     = (["begin t"; "rollback t"],
        Throw (JError "Error" "Transaction failed: Error: Rolling back on purpose"
                      on_purpose)).
Proof.
  cbn zeta.
  split; [reflexivity|]. split; [reflexivity|].
  split; [left; reflexivity|]. split; [reflexivity|].
  apply (proj1 (@failure_rolls_back_then_throws
                  Log DemoCtx DemoTxn DemoTxn_Txn
                  (TxnRunnerImpl.new (demoAccessor plainTxn)) rootCtx
                  (ArgFn failing) None [] (demoSource plainTxn) None failing
                  plainTxn ["begin t"] ["begin t"] ["begin t"; "rollback t"]
                  on_purpose eq_refl eq_refl (or_introl eq_refl) eq_refl)).
Defined.

Lemma rollback_error_replaces_failure_witness :
  let self := TxnRunnerImpl.new (demoAccessor brokenTxn) in
  TxnRunnerImpl.run_checks self rootCtx (ArgFn failing) None
  = inr (demoSource brokenTxn, None, failing)
  /\ beginTxn (demoSource brokenTxn) rootCtx None [] = (["begin t"], Normal brokenTxn)
  /\ TxnRunnerImpl.try_block_throws self rootCtx failing brokenTxn
       ["begin t"] ["begin t"] on_purpose
  /\ TxnRunnerImpl.run self rootCtx (ArgFn failing) None []
     = (["begin t"; "rollback t"], Throw (JString "rollback failed")).
Proof.
  cbn zeta.
  split; [reflexivity|]. split; [reflexivity|]. split; [left; reflexivity|].
  destruct (@rollback_error_replaces_failure
              Log DemoCtx DemoTxn DemoTxn_Txn
              (TxnRunnerImpl.new (demoAccessor brokenTxn)) rootCtx
              (ArgFn failing) None [] (demoSource brokenTxn) None failing
              brokenTxn ["begin t"] ["begin t"] on_purpose
              eq_refl eq_refl (or_introl eq_refl)) as (_ & _ & Hthrow).
  apply Hthrow. reflexivity.
Defined.

Lemma run_checks_its_arguments_witness :
  let self := TxnRunnerImpl.new (demoAccessor plainTxn) in
  let noSource := {| hasSource := false; openTxn := Some plainTxn |} in
  (* no source: the configuration error, even with no callback *)
  TxnRunnerImpl.run self noSource ArgNullish None []
  = ([], Throw ConfigurationError)
  (* a source and no callback *)
  /\ TxnRunnerImpl.run self (carrying plainTxn) ArgNullish None []
     = ([], Throw MissingCallbackError)
  (* a source, a callback, and a transaction that cannot nest *)
  /\ TxnRunnerImpl.run self (carrying plainTxn) (ArgFn work) None []
     = ([], Throw NestedTransactionError)
  (* a source, a callback, and a transaction that can nest *)
  /\ TxnRunnerImpl.run self (carrying nestableTxn) (ArgFn work) None []
     = TxnRunnerImpl.run_txn self (demoSource (demoChild nestableTxn))
                             (carrying nestableTxn) None work [].
Proof.
  cbn zeta.
  set (self := TxnRunnerImpl.new (demoAccessor plainTxn)).
  split.
  { apply (proj1 (@run_checks_its_arguments Log DemoCtx DemoTxn DemoTxn_Txn
                    self {| hasSource := false; openTxn := Some plainTxn |}
                    ArgNullish None [])).
    reflexivity. }
  split.
  { apply (proj1 (proj2 (@run_checks_its_arguments
                           Log DemoCtx DemoTxn DemoTxn_Txn
                           self (carrying plainTxn) ArgNullish None []))
                 (demoSource plainTxn)); reflexivity. }
  split.
  { apply (proj1 (proj2 (proj2 (@run_checks_its_arguments
                                  Log DemoCtx DemoTxn DemoTxn_Txn
                                  self (carrying plainTxn) (ArgFn work) None [])))
                 (demoSource plainTxn) work plainTxn); reflexivity. }
  apply (proj1 (proj2 (proj2 (proj2 (@run_checks_its_arguments
                                Log DemoCtx DemoTxn DemoTxn_Txn
                                self (carrying nestableTxn) (ArgFn work) None [])))
               (demoSource plainTxn) work nestableTxn
               (demoSource (demoChild nestableTxn))
               eq_refl eq_refl eq_refl eq_refl)).
Defined.

Lemma in_joins_or_runs_witness :
  let self := TxnRunnerImpl.new (demoAccessor plainTxn) in
  (* a transaction on the context: only the callback runs *)
  TxnRunnerImpl.in_ self (carrying plainTxn) (ArgFn work) None []
  = (["work in t"], Normal tt)
  (* none: as run *)
  /\ TxnRunnerImpl.in_ self rootCtx (ArgFn work) None []
     = (["begin t"; "work in t"; "commit t"], Normal tt).
Proof.
  cbn zeta.
  set (self := TxnRunnerImpl.new (demoAccessor plainTxn)).
  split.
  - apply (proj1 (proj1 (@in_joins_or_runs Log DemoCtx DemoTxn DemoTxn_Txn
                           self (carrying plainTxn) (ArgFn work) None [])
                        plainTxn work eq_refl eq_refl)).
  - rewrite (proj2 (@in_joins_or_runs Log DemoCtx DemoTxn DemoTxn_Txn
                      self rootCtx (ArgFn work) None []) eq_refl).
    reflexivity.
Defined.

(** C8 on the booby-trapped set of the tests: its commit runs the two
    commit actions and returns, and [beginTxn], which would have logged and
    thrown, was not called. *)
Lemma commit_without_deferTxn_witness :
  TxnChangeSetImpl._commitTxn trappedChangeSet = []
  /\ TxnChangeSetImpl.commit (trappedChangeSet, [])
     = TxnChangeSetImpl.inherited (T:=DemoTxn) ChangeSetImpl.commit
         (trappedChangeSet, [])
  /\ snd (fst (TxnChangeSetImpl.commit (trappedChangeSet, [])))
     = ["c"; "Pushed c!"]
  /\ snd (TxnChangeSetImpl.commit (trappedChangeSet, [])) = Normal tt.
Proof.
  split; [reflexivity|].
  split; [|split; reflexivity].
  apply (proj1 (@commit_without_deferTxn Log DemoCtx DemoTxn
                  trappedChangeSet [] eq_refl)).
Defined.

(** A set made on ["ctx"], with actions that log the context they are given,
    and completed with another context passed at the call: what the actions
    are given is ["ctx"]. *)
Lemma callbacks_get_creation_context_witness :
  chain "ctx" [say_ctx; say_ctx] [] ["ctx"; "ctx"]
  /\ chain "ctx" [say_ctx] [] ["ctx"]
  /\ exists o o',
       (ChangeSetImpl.defer say_ctx ;; ChangeSetImpl.defer say_ctx ;;
        ChangeSetImpl.deferFail say_ctx ;; ret tt)
         (csBuilder_beginTxn Log "ctx", []) = ((o, []), Normal tt)
       /\ ChangeSetImpl.commit_with (Some "elsewhere") (o, [])
          = ((ChangeSetImpl.committed o true, ["ctx"; "ctx"]), Normal tt)
       /\ ChangeSetImpl.rollback_with (Some "elsewhere") (o, [])
          = ((ChangeSetImpl.rolledBack o, ["ctx"]), Normal tt)
       /\ ChangeSetImpl.commit_with (Some "elsewhere") (o', ([], []))
          = ((ChangeSetImpl.committed o' true,
              (["ctx"; "ctx"], ["ctx"; "ctx"])), Normal tt)
       /\ ChangeSetImpl.rollback_with (Some "elsewhere") (o', ([], []))
          = ((ChangeSetImpl.rolledBack o', (["ctx"], ["ctx"])), Normal tt).
Proof.
  assert (Hc : chain "ctx" [say_ctx; say_ctx] [] ["ctx"; "ctx"])
    by (repeat (eapply chain_cons; [reflexivity|]); apply chain_nil).
  assert (Hr : chain "ctx" [say_ctx] [] ["ctx"])
    by (repeat (eapply chain_cons; [reflexivity|]); apply chain_nil).
  split; [exact Hc|]. split; [exact Hr|].
  destruct (@callbacks_get_creation_context Log string "ctx" (Some "elsewhere")
              [say_ctx; say_ctx] [say_ctx] [])
    as (o & o' & Hreg & Hcommit & _ & Hrollback & _ & _ & Hcommit' & _
        & Hrollback' & _).
  exists o, o'.
  split; [exact Hreg|].
  split; [exact (Hcommit _ Hc)|].
  split; [exact (Hrollback _ Hr)|].
  split; [exact (Hcommit' _ Hc) | exact (Hrollback' _ Hr)].
Defined.

(** * Further properties *)

(** ** Histories of calls on a [ChangeSetImpl] *)

Section ChangeSetHistories.
Variables S Ctx : Type.
Import ChangeSetImpl.
Implicit Types (o : ChangeSetImpl.t S Ctx) (s : S)
         (call : Call S Ctx) (calls : list (Call S Ctx)).

Lemma perform_not_accepted o s call :
  accepts (phase o) call = false ->
  perform call (o, s) = ((o, s), Throw AlreadyCompletedError).
Proof.
  unfold phase. destruct (done o) eqn:Hd; [|discriminate].
  destruct (ignoreStatus o) eqn:Hi; destruct call; cbn; try discriminate;
    intros _.
  all: first [ now apply defer_done | now apply deferFail_done
             | now apply commit_done | now apply rollback_done ].
Qed.

(** The two flags of a change set follow the state machine [next]: from
    any change set and any call, the phase after the call is the one
    [next] gives; a call the phase does not accept throws the
    already-completed error and changes neither the set nor the world; an
    accepted registration returns and leaves the world alone. *)
Theorem call_moves_phase o s call :
  phase (fst (fst (perform call (o, s))))
  = next (phase o) call (is_ok (snd (perform call (o, s))))
  /\ (accepts (phase o) call = false ->
      perform call (o, s) = ((o, s), Throw AlreadyCompletedError))
  /\ (accepts (phase o) call = true ->
      match call with
      | Defer _ | DeferFail _ =>
          snd (perform call (o, s)) = Normal tt
          /\ snd (fst (perform call (o, s))) = s
      | _ => True
      end).
Proof.
  split; [|split; [apply perform_not_accepted|]].
  - destruct (accepts (phase o) call) eqn:Hacc.
    + unfold phase in *. destruct (done o) eqn:Hd.
      * destruct (ignoreStatus o) eqn:Hi; destruct call; try discriminate.
        cbn [perform]. rewrite rollback_window by assumption. reflexivity.
      * destruct call; cbn [perform next].
        -- rewrite defer_open by assumption. cbn. now rewrite Hd.
        -- rewrite deferFail_open by assumption. cbn. now rewrite Hd.
        -- rewrite commit_open by assumption. cbn.
           now destruct (is_ok _).
        -- rewrite rollback_open by assumption. reflexivity.
    + rewrite perform_not_accepted by exact Hacc. cbn.
      unfold phase in *.
      destruct (done o); [|discriminate].
      destruct (ignoreStatus o); destruct call; try discriminate; reflexivity.
  - unfold phase. destruct (done o) eqn:Hd.
    + destruct (ignoreStatus o); destruct call; try discriminate; trivial.
    + intros _. destruct call; trivial; cbn [perform].
      * now rewrite defer_open.
      * now rewrite deferFail_open.
Qed.

(** A change set that is complete with its window shut (after a commit
    that returned, or after any rollback that ran) is inert: whatever calls
    are made on it, each throws the already-completed error, and the set and
    the world stay as they were. *)
Theorem finished_set_is_inert calls o s :
  phase o = Finished ->
  perform_all calls (o, s)
  = ((o, s), map (fun _ => Throw AlreadyCompletedError) calls).
Proof.
  intros Hfin. induction calls as [|call calls IH]; [reflexivity|].
  cbn [perform_all map].
  rewrite perform_not_accepted by (rewrite Hfin; now destruct call).
  now rewrite IH.
Qed.

Lemma loops_run_finished calls o s :
  phase o = Finished -> loops_run calls (o, s) = [].
Proof.
  intros Hfin. induction calls as [|call calls IH]; [reflexivity|].
  cbn [loops_run fst].
  rewrite perform_not_accepted by (rewrite Hfin; now destruct call).
  cbn [fst]. rewrite IH, Hfin. now destruct call.
Qed.

Lemma loops_run_commit_failed calls o s :
  phase o = CommitFailed ->
  loops_run calls (o, s) = [] \/ loops_run calls (o, s) = [Rollback].
Proof.
  intros Hcf. revert s. induction calls as [|call calls IH]; intros s;
    [now left|].
  cbn [loops_run fst]. rewrite Hcf.
  destruct call; cbn [accepts app].
  1-3: rewrite perform_not_accepted by (now rewrite Hcf); apply IH.
  right.
  pose proof (proj1 (call_moves_phase o s Rollback)) as Hn.
  destruct (perform Rollback (o, s)) as [[o1 s1] c1] eqn:Hp.
  rewrite Hcf in Hn. cbn [fst snd next] in Hn |- *.
  rewrite loops_run_finished; [reflexivity | exact Hn].
Qed.

(** Whatever calls are made on a change set, in whatever order, at most
    one [commit] and at most one [rollback] get through the status guard,
    and a [commit] never gets through after a [rollback]: the commit actions
    are run at most once, and so are the failure actions. *)
Theorem each_loop_runs_at_most_once calls o s :
  loops_run calls (o, s) = []
  \/ loops_run calls (o, s) = [Commit]
  \/ loops_run calls (o, s) = [Rollback]
  \/ loops_run calls (o, s) = [Commit; Rollback].
Proof.
  revert o s. induction calls as [|call calls IH]; intros o s; [now left|].
  destruct (phase o) eqn:Hph.
  - cbn [loops_run fst]. rewrite Hph.
    destruct (perform call (o, s)) as [[o1 s1] c1] eqn:Hp.
    pose proof (proj1 (call_moves_phase o s call)) as Hn.
    rewrite Hp, Hph in Hn. cbn [fst snd] in Hn |- *.
    destruct call; cbn [accepts app next] in *.
    + apply IH.
    + apply IH.
    + destruct (is_ok c1).
      * rewrite loops_run_finished by exact Hn. auto.
      * destruct (@loops_run_commit_failed calls o1 s1 Hn) as [-> | ->]; auto.
    + rewrite loops_run_finished by exact Hn. auto.
  - destruct (@loops_run_commit_failed (call :: calls) o s Hph) as [-> | ->];
      auto.
  - rewrite loops_run_finished by exact Hph. auto.
Qed.

Lemma perform_frame o s call :
  let o' := fst (fst (perform call (o, s))) in
  ctx o' = ctx o
  /\ (done o = true ->
      done o' = true /\ commitFns o' = commitFns o
      /\ rollbackFns o' = rollbackFns o).
Proof.
  cbn zeta. destruct (accepts (phase o) call) eqn:Hacc.
  - unfold phase in Hacc. destruct (done o) eqn:Hd.
    + destruct (ignoreStatus o) eqn:Hi; destruct call; try discriminate.
      cbn [perform]. rewrite rollback_window by assumption. now cbn.
    + split; [|discriminate]. destruct call; cbn [perform].
      * now rewrite defer_open.
      * now rewrite deferFail_open.
      * now rewrite commit_open.
      * now rewrite rollback_open.
  - rewrite perform_not_accepted by exact Hacc. now cbn.
Qed.

(** No call changes the context of a change set; and once the set is
    complete it stays complete and its two lists of actions are frozen,
    whatever calls are made on it afterwards. *)
Theorem completed_set_is_frozen calls o s :
  let o' := fst (fst (perform_all calls (o, s))) in
  ctx o' = ctx o
  /\ (done o = true ->
      done o' = true /\ commitFns o' = commitFns o
      /\ rollbackFns o' = rollbackFns o).
Proof.
  cbn zeta. revert o s. induction calls as [|call calls IH]; intros o s.
  - cbn. auto.
  - cbn [perform_all].
    destruct (perform call (o, s)) as [[o1 s1] c1] eqn:Hp.
    destruct (perform_all calls (o1, s1)) as [[o2 s2] cs] eqn:Hpa.
    cbn [fst].
    pose proof (perform_frame o s call) as Hf. rewrite Hp in Hf.
    pose proof (IH o1 s1) as Hi. rewrite Hpa in Hi. cbn [fst] in Hf, Hi.
    destruct Hf as [Hc Hd], Hi as [Hc' Hd'].
    split; [congruence|].
    intros H. destruct (Hd H) as (H1 & H2 & H3).
    destruct (Hd' H1) as (H1' & H2' & H3').
    repeat split; congruence.
Qed.

(** [commit] never calls a failure action and [rollback] never calls a
    commit action: with any other list of failure actions registered, a
    [commit] acts on the world and completes in the same way, and so does a
    [rollback] with any other list of commit actions. *)
Theorem loops_keep_to_their_own_list
        (cf cf' rf rf' : list (CtxCallback S Ctx)) (c : Ctx) (d i : bool) s :
  let o := {| commitFns := cf; rollbackFns := rf; ctx := c;
              done := d; ignoreStatus := i |} in
  let o1 := {| commitFns := cf; rollbackFns := rf'; ctx := c;
               done := d; ignoreStatus := i |} in
  let o2 := {| commitFns := cf'; rollbackFns := rf; ctx := c;
               done := d; ignoreStatus := i |} in
  (snd (fst (commit (o1, s))), snd (commit (o1, s)))
  = (snd (fst (commit (o, s))), snd (commit (o, s)))
  /\ (snd (fst (rollback (o2, s))), snd (rollback (o2, s)))
     = (snd (fst (rollback (o, s))), snd (rollback (o, s))).
Proof.
  cbn zeta. split.
  - destruct d.
    + now rewrite !commit_done.
    + now rewrite !commit_open.
  - destruct i.
    + now rewrite !rollback_window.
    + destruct d.
      * now rewrite !rollback_done.
      * now rewrite !rollback_open.
Qed.

(** On an open change set, a history of [defer] and [deferFail] calls,
    however interleaved, only registers: every call returns, the world is
    untouched and the set stays open, and each of the two lists grows by the
    actions given to its method, in the order of the calls. *)
Theorem registrations_keep_call_order calls o s :
  done o = false ->
  registers calls ->
  exists o',
    perform_all calls (o, s) = ((o', s), map (fun _ => Normal tt) calls)
    /\ commitFns o' = commitFns o ++ deferred calls
    /\ rollbackFns o' = rollbackFns o ++ deferredFail calls
    /\ done o' = false /\ ctx o' = ctx o
    /\ ignoreStatus o' = ignoreStatus o.
Proof.
  intros Hopen Hreg. revert o Hopen.
  induction Hreg as [|call calls Hcall _ IH]; intros o Hopen.
  - exists o. cbn. rewrite !app_nil_r. repeat split; auto.
  - destruct call as [fn|fn| |]; try contradiction; cbn [perform_all perform].
    + rewrite defer_open by assumption.
      destruct (IH (push_commitFns fn o) Hopen)
        as (o' & -> & Hc & Hr & Hd & Hx & Hi).
      exists o'. cbn [map deferred deferredFail].
      repeat split; auto. rewrite Hc. cbn. now rewrite <- app_assoc.
    + rewrite deferFail_open by assumption.
      destruct (IH (push_rollbackFns fn o) Hopen)
        as (o' & -> & Hc & Hr & Hd & Hx & Hi).
      exists o'. cbn [map deferred deferredFail].
      repeat split; auto. rewrite Hr. cbn. now rewrite <- app_assoc.
Qed.
End ChangeSetHistories.

(** ** The transactional phase of [TxnChangeSetImpl.commit] *)

Section TxnChangeSetCommit.
Context {S Ctx T : Type}.
Import TxnChangeSetImpl.
Implicit Types (o : TxnChangeSetImpl.t S Ctx T) (s : S) (e : JsVal).

Lemma txn_commit_done o s :
  ChangeSetImpl.done (super o) = true ->
  commit (o, s) = ((o, s), Throw AlreadyCompletedError).
Proof.
  intros Hd. unfold commit, checkStatus, inherited, bind.
  rewrite checkStatus_done by assumption. now destruct o.
Qed.

(** [commit] on an open set with transactional actions, in terms of how the
    runner completes. *)
Lemma txn_commit_open o s :
  ChangeSetImpl.done (super o) = false ->
  _commitTxn o <> [] ->
  let c := ChangeSetImpl.ctx (super o) in
  let r := run (_txnRunner o) c (ArgFn (run_commitTxn o)) None s in
  commit (o, s)
  = match snd r with
    | Throw e => ((committed o false, fst r), Throw e)
    | Normal _ =>
        ((committed o
            (is_ok (snd (run_all c (ChangeSetImpl.commitFns (super o)) (fst r)))),
          fst (run_all c (ChangeSetImpl.commitFns (super o)) (fst r))),
         snd (run_all c (ChangeSetImpl.commitFns (super o)) (fst r)))
    end.
Proof.
  intros Hopen Hne. cbn zeta.
  unfold commit, checkStatus, inherited, bind.
  rewrite checkStatus_open by assumption. cbn [super update this].
  destruct o as [b fns rn]. cbn [super _commitTxn _txnRunner set_super] in *.
  destruct fns as [|fn fns]; [contradiction|].
  cbn [List.length Nat.ltb Nat.leb]. unfold try_finally, lift, committed.
  change (ChangeSetImpl.ctx (ChangeSetImpl.set_done true b))
    with (ChangeSetImpl.ctx b).
  destruct (run rn (ChangeSetImpl.ctx b) _ None s) as [s1 [[]|e]];
    cbn [fst snd super set_super update]; [|reflexivity].
  rewrite run_commitFns_eq. reflexivity.
Qed.

(** When the runner throws in the transactional phase of [commit], no
    commit action is called: [commit] throws what the runner threw in the
    state the runner left, and the window is open, so that the next
    [rollback] runs the failure actions, once. *)
Theorem failed_txn_phase_skips_commit_actions o s s1 e :
  ChangeSetImpl.done (super o) = false ->
  _commitTxn o <> [] ->
  run (_txnRunner o) (ChangeSetImpl.ctx (super o))
      (ArgFn (run_commitTxn o)) None s = (s1, Throw e) ->
  commit (o, s) = ((committed o false, s1), Throw e)
  /\ (forall s',
         rollback (committed o false, s')
         = ((rolledBack o,
             fst (run_all (ChangeSetImpl.ctx (super o))
                          (ChangeSetImpl.rollbackFns (super o)) s')),
            snd (run_all (ChangeSetImpl.ctx (super o))
                         (ChangeSetImpl.rollbackFns (super o)) s')))
  /\ rejected commit (committed o false)
  /\ rejected rollback (rolledBack o)
  /\ rejected commit (rolledBack o).
Proof.
  intros Hopen Hne Hrun. split; [|split; [|split; [|split]]].
  - rewrite txn_commit_open by assumption. cbn zeta. now rewrite Hrun.
  - intros s'. unfold rollback, inherited. cbn [super set_super].
    rewrite rollback_window by reflexivity. reflexivity.
  - intros s'. now apply txn_commit_done.
  - intros s'. unfold rollback, inherited. cbn [super set_super].
    rewrite rollback_done by reflexivity. now destruct o.
  - intros s'. now apply txn_commit_done.
Qed.

(** When the runner returns from the transactional phase, [commit] then
    calls the commit actions, in order, from the state the runner left:
    everything the transactional phase did comes before the first commit
    action; how the commit actions complete is how [commit] completes. *)
Theorem txn_phase_precedes_commit_actions o s s1 :
  ChangeSetImpl.done (super o) = false ->
  _commitTxn o <> [] ->
  run (_txnRunner o) (ChangeSetImpl.ctx (super o))
      (ArgFn (run_commitTxn o)) None s = (s1, Normal tt) ->
  let r := run_all (ChangeSetImpl.ctx (super o))
                   (ChangeSetImpl.commitFns (super o)) s1 in
  commit (o, s) = ((committed o (is_ok (snd r)), fst r), snd r).
Proof.
  intros Hopen Hne Hrun. rewrite txn_commit_open by assumption.
  cbn zeta. now rewrite Hrun.
Qed.

(** No call made on a completed transaction change set reads the list of
    transactional actions: [commit] is turned down before the runner is
    reached, also after [deferTxn] has accepted a new action, and
    [rollback] acts on the world as on the inherited fields alone.  So an
    action that [deferTxn] takes once the transactional loop is over is
    called by no later call.  (While the loop runs the set is complete as
    well, and there the loop itself reads the list: [run_live_cons].) *)
Theorem completed_set_calls_ignore_txn_actions o s (fn : TxnAction S Ctx T) :
  ChangeSetImpl.done (super o) = true ->
  let o' := fst (fst (deferTxn fn (o, s))) in
  commit (o, s) = ((o, s), Throw AlreadyCompletedError)
  /\ _commitTxn o' = _commitTxn o ++ [fn]
  /\ ChangeSetImpl.done (super o') = true
  /\ commit (o', s) = ((o', s), Throw AlreadyCompletedError)
  /\ (snd (fst (rollback (o', s))), snd (rollback (o', s)))
     = (snd (fst (ChangeSetImpl.rollback (super o, s))),
        snd (ChangeSetImpl.rollback (super o, s))).
Proof.
  intros Hd. cbn zeta. cbn [deferTxn update fst].
  split; [now apply txn_commit_done|]. split; [reflexivity|].
  split; [exact Hd|]. split; [now apply txn_commit_done|].
  unfold rollback, inherited. cbn [super push_commitTxn].
  now destruct (ChangeSetImpl.rollback (super o, s)) as [[b1 s1] c1].
Qed.

(** [deferTxn] keeps the order of the calls and touches nothing else: a
    sequence of [deferTxn] calls, on a set in any state, returns each time,
    leaves the world and the inherited fields alone and appends the actions
    in the order given. *)
Theorem deferTxn_keeps_call_order (fns : list (TxnAction S Ctx T)) o s :
  exists o',
    for_of fns (@deferTxn S Ctx T) (o, s) = ((o', s), Normal tt)
    /\ _commitTxn o' = _commitTxn o ++ fns
    /\ super o' = super o
    /\ _txnRunner o' = _txnRunner o.
Proof.
  revert o. induction fns as [|fn fns IH]; intros o.
  - exists o. rewrite app_nil_r. repeat split.
  - cbn [for_of]. unfold bind. cbn [deferTxn update].
    destruct (IH (push_commitTxn fn o)) as (o' & Hrun & Hc & Hs & Hr).
    exists o'. rewrite Hrun. repeat split; auto.
    rewrite Hc. cbn. now rewrite <- app_assoc.
Qed.
End TxnChangeSetCommit.

(** ** More on [TxnRunnerImpl.run] *)

Section RunnerMore.
Context {S Ctx T : Type} {ops : Txn S Ctx T}.
Import TxnRunnerImpl.
Implicit Types (self : TxnRunnerImpl.t S Ctx T) (ctx : Ctx) (s : S)
         (a : FnOrOpts S Ctx T) (mf : option (TxnCallback S Ctx T))
         (fn : TxnCallback S Ctx T) (x : T) (e : JsVal).

Lemma run_txn_returns self ctx src opts fn x s s0 s1 s2 v :
  beginTxn src ctx opts s = (s0, Normal x) ->
  fn (_withTxn self ctx x) x s0 = (s1, Normal v) ->
  commit x None s1 = (s2, Normal tt) ->
  run_txn self src ctx opts fn s = (s2, Normal tt).
Proof.
  intros Hb Hf Hc. unfold run_txn. unfold bind at 1. rewrite Hb.
  unfold try_catch, bind. now rewrite Hf, Hc.
Qed.

Lemma run_txn_throws self ctx src opts fn x s s0 s1 e :
  beginTxn src ctx opts s = (s0, Normal x) ->
  try_block_throws self ctx fn x s0 s1 e ->
  run_txn self src ctx opts fn s
  = (fst (rollback x None s1),
     match snd (rollback x None s1) with
     | Normal _ => Throw (TransactionFailed e)
     | Throw r => Throw r
     end).
Proof.
  intros Hb Htry. unfold run_txn. unfold bind at 1. rewrite Hb.
  unfold try_catch. rewrite (try_block_throws_bind Htry).
  unfold bind, throw. now destruct (rollback x None s1) as [s2 [[]|r]].
Qed.

Lemma run_txn_begin_throws self ctx src opts fn s s0 e :
  beginTxn src ctx opts s = (s0, Throw e) ->
  run_txn self src ctx opts fn s = (s0, Throw e).
Proof. intros Hb. unfold run_txn, bind. now rewrite Hb. Qed.

(** When the callback of a [run] that passed its checks returns and
    [commit] returns, [run] returns in the state [commit] left; [rollback]
    is not called: whatever [rollback] would do, the run is the same. *)
Theorem run_commits_on_success self ctx a mf s src opts fn x s0 s1 s2 v :
  run_checks self ctx a mf = inr (src, opts, fn) ->
  beginTxn src ctx opts s = (s0, Normal x) ->
  fn (_withTxn self ctx x) x s0 = (s1, Normal v) ->
  commit x None s1 = (s2, Normal tt) ->
  run self ctx a mf s = (s2, Normal tt)
  /\ forall rollback' : T -> option Ctx -> M S unit,
      @run S Ctx T
           {| commit := @commit S Ctx T ops;
              rollback := rollback';
              asTransactable := @asTransactable S Ctx T ops |}
           self ctx a mf s
      = (s2, Normal tt).
Proof.
  intros Hchk Hb Hf Hc. split.
  - unfold run. rewrite Hchk. eapply run_txn_returns; eauto.
  - intros rollback'. unfold run.
    change (@run_checks S Ctx T _ self ctx a mf)
      with (@run_checks S Ctx T ops self ctx a mf).
    rewrite Hchk. unfold run_txn. unfold bind at 1. rewrite Hb.
    unfold try_catch, bind. rewrite Hf. cbn [commit]. now rewrite Hc.
Qed.

(** When [beginTxn] itself throws, [run] throws the very same value in the
    state [beginTxn] left: the error is not wrapped, and neither the
    callback nor [commit] nor [rollback] is called, so the run is the same
    with any other callback. *)
Theorem beginTxn_error_is_not_wrapped self ctx a mf s src opts fn s0 e :
  run_checks self ctx a mf = inr (src, opts, fn) ->
  beginTxn src ctx opts s = (s0, Throw e) ->
  run self ctx a mf s = (s0, Throw e)
  /\ forall fn' : TxnCallback S Ctx T,
      run self ctx (match a with
                    | ArgFn _ => ArgFn fn'
                    | _ => a
                    end)
          (match a with
           | ArgFn _ => mf
           | _ => Some fn'
           end) s
      = (s0, Throw e).
Proof.
  intros Hchk Hb. split.
  - unfold run. rewrite Hchk. now apply run_txn_begin_throws.
  - intros fn'. unfold run.
    assert (H : run_checks self ctx
                  (match a with ArgFn _ => ArgFn fn' | _ => a end)
                  (match a with ArgFn _ => mf | _ => Some fn' end)
                = inr (src, opts, fn')).
    { unfold run_checks in *.
      destruct a; cbn [resolve] in *;
        destruct (_getTransactable self ctx); try discriminate;
        try (destruct mf; try discriminate);
        destruct (_getTxn self ctx) as [y|];
        try (destruct (asTransactable y)); try discriminate;
        congruence. }
    rewrite H. now apply run_txn_begin_throws.
Qed.

(** The options reach [beginTxn] as they were given and the callback is
    called on the context that carries the new transaction: a [run] with
    options and a callback begins with these options, a [run] with a
    callback alone begins with none, and in both the third argument is
    looked at only when the second is not a callback. *)
Lemma run_passes_options_and_context self ctx src fn o s :
  _getTransactable self ctx = Some src ->
  _getTxn self ctx = None ->
  run self ctx (ArgOpts o) (Some fn) s
  = (x <- beginTxn src ctx (Some o) ;;
     try_catch (fn (_withTxn self ctx x) x ;; commit x None)
               (fun e => rollback x None ;; throw (TransactionFailed e))) s
  /\ (forall mf,
         run self ctx (ArgFn fn) mf s
         = (x <- beginTxn src ctx None ;;
            try_catch (fn (_withTxn self ctx x) x ;; commit x None)
                      (fun e => rollback x None ;; throw (TransactionFailed e))) s).
Proof.
  intros Hsrc Hx. unfold run, run_checks. cbn [resolve].
  rewrite Hsrc, Hx. split; [reflexivity | intros mf; reflexivity].
Qed.
End RunnerMore.

(** Wrapping twice keeps the whole chain: the error a run throws for a
    failure that is itself a transaction-failed error (a run inside the
    callback of a run, or the runner inside a transaction change set) has
    the inner error as its cause, and its message is the inner message
    after "Transaction failed: Error: ". *)
Theorem TransactionFailed_twice (e : JsVal) :
  TransactionFailed (TransactionFailed e)
  = new_Error
      ("Transaction failed: Error: Transaction failed"
         ++ (if not_nullish e then ": " ++ ToString e else ""))%string
      (TransactionFailed e)
  /\ ToString (TransactionFailed e)
     = ("Error: Transaction failed"
          ++ (if not_nullish e then ": " ++ ToString e else ""))%string.
Proof. split; reflexivity. Qed.

(** ** [TxnChangeSetImpl.commit] on the runner of an accessor *)

Section TxnChangeSetOnRunner.
Context {S Ctx T : Type} {ops : Txn S Ctx T}.
Implicit Types (o : TxnChangeSetImpl.t S Ctx T) (s : S) (e : JsVal)
         (acc : TxnAccessor S Ctx T).

Lemma run_commitTxn_eq o c x s :
  TxnChangeSetImpl.run_commitTxn o c x s
  = (fst (run_live c x (TxnChangeSetImpl._commitTxn o) s),
     match snd (run_live c x (TxnChangeSetImpl._commitTxn o) s) with
     | Normal _ => Normal JUndefined
     | Throw e => Throw e
     end).
Proof.
  unfold TxnChangeSetImpl.run_commitTxn, bind, ret.
  now destruct (run_live c x _ s) as [s1 [[]|e]].
Qed.

(** With the runner of an accessor, on a context with a source and no open
    transaction, [commit] wraps the transactional actions in one
    transaction: it begins one, with no options; runs the loop over the
    live list on the context that carries it, which calls the registered
    actions in order and after them the actions that those register on the
    set meanwhile; commits the transaction when the loop returns; and only
    then calls the commit actions, from the state the transaction's commit
    left. *)
Theorem txn_actions_run_in_one_transaction o acc src x s s0 s1 s2 :
  TxnChangeSetImpl._txnRunner o = txn acc ->
  ChangeSetImpl.done (TxnChangeSetImpl.super o) = false ->
  TxnChangeSetImpl._commitTxn o <> [] ->
  let c := ChangeSetImpl.ctx (TxnChangeSetImpl.super o) in
  getTransactable acc c = Some src ->
  getTxn acc c = None ->
  beginTxn src c None s = (s0, Normal x) ->
  run_live (withTxn acc c x) x (TxnChangeSetImpl._commitTxn o) s0
  = (s1, Normal tt) ->
  commit x None s1 = (s2, Normal tt) ->
  let r := run_all c (ChangeSetImpl.commitFns (TxnChangeSetImpl.super o)) s2 in
  TxnChangeSetImpl.commit (o, s)
  = ((TxnChangeSetImpl.committed o (is_ok (snd r)), fst r), snd r).
Proof.
  intros Hrn Hopen Hne c Hsrc Hx Hb Hacts Hc. cbn zeta.
  rewrite txn_commit_open by assumption. cbn zeta. rewrite Hrn.
  cbn [run txn].
  assert (Hrun : TxnRunnerImpl.run (TxnRunnerImpl.new acc) c
                   (ArgFn (TxnChangeSetImpl.run_commitTxn o)) None s = (s2, Normal tt)).
  { unfold TxnRunnerImpl.run, TxnRunnerImpl.run_checks.
    cbn [TxnRunnerImpl.resolve TxnRunnerImpl.new
         TxnRunnerImpl._getTransactable TxnRunnerImpl._getTxn].
    rewrite Hsrc, Hx.
    eapply run_txn_returns; [exact Hb | | exact Hc].
    cbn [TxnRunnerImpl.new TxnRunnerImpl._withTxn].
    rewrite run_commitTxn_eq, Hacts. reflexivity. }
  fold c. rewrite Hrun. reflexivity.
Qed.

(** With the runner of an accessor, when a transactional action throws
    [e], the actions after it are not called, the transaction is rolled
    back and not committed, no commit action is called, and [commit]
    throws the transaction-failed error of [e] (what the transaction's own
    [rollback] threw, if it threw) with the window open. *)
Theorem failing_txn_action_rolls_back o acc src x s s0 s1 e :
  TxnChangeSetImpl._txnRunner o = txn acc ->
  ChangeSetImpl.done (TxnChangeSetImpl.super o) = false ->
  TxnChangeSetImpl._commitTxn o <> [] ->
  let c := ChangeSetImpl.ctx (TxnChangeSetImpl.super o) in
  getTransactable acc c = Some src ->
  getTxn acc c = None ->
  beginTxn src c None s = (s0, Normal x) ->
  run_all_txn (withTxn acc c x) x (TxnChangeSetImpl._commitTxn o) s0 = (s1, Throw e) ->
  TxnChangeSetImpl.commit (o, s)
  = ((TxnChangeSetImpl.committed o false, fst (rollback x None s1)),
     match snd (rollback x None s1) with
     | Normal _ => Throw (TransactionFailed e)
     | Throw r => Throw r
     end).
Proof.
  intros Hrn Hopen Hne c Hsrc Hx Hb Hacts.
  rewrite txn_commit_open by assumption. cbn zeta. rewrite Hrn.
  cbn [run txn].
  assert (Hrun : TxnRunnerImpl.run (TxnRunnerImpl.new acc) c
                   (ArgFn (TxnChangeSetImpl.run_commitTxn o)) None s
                 = (fst (rollback x None s1),
                    match snd (rollback x None s1) with
                    | Normal _ => Throw (TransactionFailed e)
                    | Throw r => Throw r
                    end)).
  { unfold TxnRunnerImpl.run, TxnRunnerImpl.run_checks.
    cbn [TxnRunnerImpl.resolve TxnRunnerImpl.new
         TxnRunnerImpl._getTransactable TxnRunnerImpl._getTxn].
    rewrite Hsrc, Hx.
    eapply run_txn_throws; [exact Hb|]. left.
    cbn [TxnRunnerImpl.new TxnRunnerImpl._withTxn].
    rewrite run_commitTxn_eq, (run_live_throws _ _ _ _ Hacts). reflexivity. }
  fold c. rewrite Hrun. cbn [fst snd].
  now destruct (rollback x None s1) as [s2 [[]|r]].
Qed.

(** With the runner of an accessor, [commit] with transactional actions
    fails as [run] does on the context the set was created on: with the
    configuration error when that context has no source, and with the
    nested-transaction error when it carries a transaction that cannot
    begin transactions.  Nothing is begun, no action of any kind is called,
    and the window is open. *)
Theorem txn_commit_fails_as_run_does o acc s :
  TxnChangeSetImpl._txnRunner o = txn acc ->
  ChangeSetImpl.done (TxnChangeSetImpl.super o) = false ->
  TxnChangeSetImpl._commitTxn o <> [] ->
  let c := ChangeSetImpl.ctx (TxnChangeSetImpl.super o) in
  (getTransactable acc c = None ->
   TxnChangeSetImpl.commit (o, s)
   = ((TxnChangeSetImpl.committed o false, s), Throw ConfigurationError))
  /\ (forall src y,
         getTransactable acc c = Some src ->
         getTxn acc c = Some y ->
         asTransactable y = None ->
         TxnChangeSetImpl.commit (o, s)
         = ((TxnChangeSetImpl.committed o false, s), Throw NestedTransactionError)).
Proof.
  intros Hrn Hopen Hne c.
  split; [intros Hsrc | intros src y Hsrc Hy Hn];
    rewrite txn_commit_open by assumption; cbn zeta; rewrite Hrn;
    cbn [run txn]; fold c;
    unfold TxnRunnerImpl.run, TxnRunnerImpl.run_checks;
    cbn [TxnRunnerImpl.resolve TxnRunnerImpl.new
         TxnRunnerImpl._getTransactable TxnRunnerImpl._getTxn];
    rewrite Hsrc; [| rewrite Hy, Hn]; reflexivity.
Qed.

(** With the runner of an accessor, when the loop over the live list throws
    [e], be it in an action registered before [commit] or in one that an
    action has registered while the loop ran, the transaction is rolled
    back and not committed, no commit action is called, and [commit]
    throws the transaction-failed error of [e] (what the transaction's own
    [rollback] threw, if it threw) with the window open. *)
Theorem failing_txn_loop_rolls_back o acc src x s s0 s1 e :
  TxnChangeSetImpl._txnRunner o = txn acc ->
  ChangeSetImpl.done (TxnChangeSetImpl.super o) = false ->
  TxnChangeSetImpl._commitTxn o <> [] ->
  let c := ChangeSetImpl.ctx (TxnChangeSetImpl.super o) in
  getTransactable acc c = Some src ->
  getTxn acc c = None ->
  beginTxn src c None s = (s0, Normal x) ->
  run_live (withTxn acc c x) x (TxnChangeSetImpl._commitTxn o) s0
  = (s1, Throw e) ->
  TxnChangeSetImpl.commit (o, s)
  = ((TxnChangeSetImpl.committed o false, fst (rollback x None s1)),
     match snd (rollback x None s1) with
     | Normal _ => Throw (TransactionFailed e)
     | Throw r => Throw r
     end).
Proof.
  intros Hrn Hopen Hne c Hsrc Hx Hb Hacts.
  rewrite txn_commit_open by assumption. cbn zeta. rewrite Hrn.
  cbn [run txn].
  assert (Hrun : TxnRunnerImpl.run (TxnRunnerImpl.new acc) c
                   (ArgFn (TxnChangeSetImpl.run_commitTxn o)) None s
                 = (fst (rollback x None s1),
                    match snd (rollback x None s1) with
                    | Normal _ => Throw (TransactionFailed e)
                    | Throw r => Throw r
                    end)).
  { unfold TxnRunnerImpl.run, TxnRunnerImpl.run_checks.
    cbn [TxnRunnerImpl.resolve TxnRunnerImpl.new
         TxnRunnerImpl._getTransactable TxnRunnerImpl._getTxn].
    rewrite Hsrc, Hx.
    eapply run_txn_throws; [exact Hb|]. left.
    cbn [TxnRunnerImpl.new TxnRunnerImpl._withTxn].
    rewrite run_commitTxn_eq, Hacts. reflexivity. }
  fold c. rewrite Hrun. cbn [fst snd].
  now destruct (rollback x None s1) as [s2 [[]|r]].
Qed.
End TxnChangeSetOnRunner.

(** ** The transactional loop and [deferTxn] during [commit] *)

Section LateRegistrations.
Context {S Ctx T : Type}.

(** The transactional loop of [commit] goes over the live list.  On an
    empty list it returns at once.  Otherwise it calls the first entry:
    when that throws, the loop throws the same in the state it left and
    calls nothing more; when it returns, the loop goes on with the entries
    behind it followed by the entries it gave to [deferTxn] of its own set
    meanwhile, so that an action registered during the loop is called in
    the same loop, after every action registered before it.  When the
    actions are callbacks that register nothing, the loop is the plain
    loop over the list. *)
Theorem txn_loop_reaches_late_registrations (c : Ctx) (x : T) :
  (forall s : S, run_live c x [] s = (s, Normal tt))
  /\ (forall (a : TxnAction S Ctx T) rest s s1 v,
         action_fn a c x s = (s1, Normal v) ->
         run_live c x (a :: rest) s
         = run_live c x (rest ++ action_defers a c x s) s1)
  /\ (forall (a : TxnAction S Ctx T) rest s s1 e,
         action_fn a c x s = (s1, Throw e) ->
         run_live c x (a :: rest) s = (s1, Throw e))
  /\ (forall (fns : list (TxnCallback S Ctx T)) s,
         run_live c x (map plain fns) s = for_of fns (fun fn => fn c x) s).
Proof.
  split; [intros s; apply run_live_nil|].
  split; [intros a rest s s1 v H; now rewrite run_live_cons, H|].
  split; [intros a rest s s1 e H; now rewrite run_live_cons, H|].
  intros fns s. rewrite run_live_plain.
  - unfold run_all_txn. revert s.
    induction fns as [|fn fns IH]; intros s; [reflexivity|].
    cbn [map for_of]. unfold bind. cbn [plain action_fn].
    destruct (fn c x s) as [s1 [v|e]]; [apply IH | reflexivity].
  - intros a s' Ha. apply in_map_iff in Ha. destruct Ha as (fn & <- & _).
    reflexivity.
Qed.
End LateRegistrations.


(** ** Objects held by reference *)

Section StoreFacts.
Variables O W : Type.
Implicit Types (h : Store O) (o : O) (w : W).

Lemma nth_error_last h o : nth_error (h ++ [o]) (List.length h) = Some o.
Proof. induction h as [|x h IH]; [reflexivity | exact IH]. Qed.

Lemma write_last h o o' : write (List.length h) o' (h ++ [o]) = h ++ [o'].
Proof.
  induction h as [|x h IH]; [reflexivity|]. cbn. now rewrite IH.
Qed.

(** A method run on the object made last. *)
Lemma on_last A (m : M (O * W) A) h o w :
  on (List.length h) m (h ++ [o], w)
  = ((h ++ [fst (fst (m (o, w)))], snd (fst (m (o, w)))), snd (m (o, w))).
Proof.
  unfold on. rewrite nth_error_last.
  destruct (m (o, w)) as [[o' w'] c]. now rewrite write_last.
Qed.
End StoreFacts.

(** ** [changeSet()]: runs of the runner of change sets *)

Section ChangeSetRunnerFacts.
Variables W Ctx Key : Type.
Variable value : Ctx -> Key -> option nat.
Variable withValue : Ctx -> Key -> nat -> Ctx.
Variable key : Key.
Implicit Types (h : Store (ChangeSetImpl.t W Ctx)) (w : W) (ctx : Ctx)
         (calls : list (Call W Ctx)) (o : ChangeSetImpl.t W Ctx)
         (fn : TxnCallback (CsState W Ctx) Ctx nat).

(** A run on a context that carries no change set makes a new one on that
    context and goes on to the callback. *)
Lemma changeSet_run_begins ctx fn h w :
  getChangeSet value key ctx = None ->
  run (changeSet W value withValue key) ctx (ArgFn fn) None (h, w)
  = @TxnRunnerImpl.run_txn _ _ _ (ChangeSet_Txn W Ctx)
      (TxnRunnerImpl.new (csAccessor W value withValue key))
      (csBuilder W Ctx) ctx None fn (h, w)
  /\ beginTxn (csBuilder W Ctx) ctx None (h, w)
     = ((h ++ [ChangeSetImpl.new W ctx], w), Normal (List.length h)).
Proof.
  intros Hnone. split; [|reflexivity].
  unfold changeSet, txn. cbn [run].
  unfold TxnRunnerImpl.run, TxnRunnerImpl.run_checks.
  cbn [TxnRunnerImpl.resolve TxnRunnerImpl.new TxnRunnerImpl._getTxn
       TxnRunnerImpl._getTransactable getCsBuilder csAccessor
       getTransactable getTxn].
  now rewrite Hnone.
Qed.

(** A callback that only registers leaves the new set open, with the
    actions it was given in the order of the calls. *)
Lemma script_registers calls h o w :
  registers calls ->
  ChangeSetImpl.done o = false ->
  exists o',
    for_of calls (fun call => on (List.length h) (perform call)) (h ++ [o], w)
    = ((h ++ [o'], w), Normal tt)
    /\ ChangeSetImpl.commitFns o' = ChangeSetImpl.commitFns o ++ deferred calls
    /\ ChangeSetImpl.rollbackFns o'
       = ChangeSetImpl.rollbackFns o ++ deferredFail calls
    /\ ChangeSetImpl.done o' = false
    /\ ChangeSetImpl.ctx o' = ChangeSetImpl.ctx o
    /\ ChangeSetImpl.ignoreStatus o' = ChangeSetImpl.ignoreStatus o.
Proof.
  intros Hreg. revert o.
  induction Hreg as [|call calls Hcall _ IH]; intros o Hopen.
  - exists o. cbn. rewrite !app_nil_r. repeat split; auto.
  - cbn [for_of]. unfold bind. rewrite on_last.
    destruct call as [f|f| |]; try contradiction; cbn [perform].
    + rewrite defer_open by assumption. cbn [fst snd].
      destruct (IH (ChangeSetImpl.push_commitFns f o) Hopen)
        as (o' & -> & Hc & Hr & Hd & Hx & Hi).
      exists o'. repeat split; auto.
      rewrite Hc. cbn. now rewrite <- app_assoc.
    + rewrite deferFail_open by assumption. cbn [fst snd].
      destruct (IH (ChangeSetImpl.push_rollbackFns f o) Hopen)
        as (o' & -> & Hc & Hr & Hd & Hx & Hi).
      exists o'. repeat split; auto.
      rewrite Hr. cbn. now rewrite <- app_assoc.
Qed.

(** What the runner does with the set the callback left, in terms of the
    two action loops: the [try] block's [commit], and the [rollback] of the
    [catch] block. *)
Lemma commit_last h o w :
  ChangeSetImpl.done o = false ->
  @commit _ _ _ (ChangeSet_Txn W Ctx) (List.length h) None (h ++ [o], w)
  = ((h ++ [ChangeSetImpl.committed o
              (is_ok (snd (run_all (ChangeSetImpl.ctx o)
                                   (ChangeSetImpl.commitFns o) w)))],
      fst (run_all (ChangeSetImpl.ctx o) (ChangeSetImpl.commitFns o) w)),
     snd (run_all (ChangeSetImpl.ctx o) (ChangeSetImpl.commitFns o) w)).
Proof.
  intros Hopen. cbn [commit ChangeSet_Txn]. rewrite on_last.
  unfold ChangeSetImpl.commit_with. now rewrite commit_open.
Qed.

Lemma rollback_last h o w :
  ChangeSetImpl.done o = false \/ ChangeSetImpl.ignoreStatus o = true ->
  @rollback _ _ _ (ChangeSet_Txn W Ctx) (List.length h) None (h ++ [o], w)
  = ((h ++ [ChangeSetImpl.rolledBack o],
      fst (run_all (ChangeSetImpl.ctx o) (ChangeSetImpl.rollbackFns o) w)),
     snd (run_all (ChangeSetImpl.ctx o) (ChangeSetImpl.rollbackFns o) w)).
Proof.
  intros Hperm. cbn [rollback ChangeSet_Txn]. rewrite on_last.
  unfold ChangeSetImpl.rollback_with.
  destruct Hperm; [now rewrite rollback_open | now rewrite rollback_window].
Qed.

(** A run of [changeSet()] whose callback registers actions and returns.
    Nothing is called before the callback has returned; then the commit
    actions are called in the order they were registered, on the context
    the run was called on.  When they all return the run returns.  When one
    throws [e], the failure actions are called in the order they were
    registered, from the state the commit actions left, and the run throws
    the transaction-failed error of [e] (or what a failure action threw).
    Either way the set is left complete with its window shut. *)
Theorem changeSet_run_commits_deferred_actions calls v ctx h w :
  getChangeSet value key ctx = None ->
  registers calls ->
  let r := run (changeSet W value withValue key) ctx (ArgFn (script calls (Normal v))) None (h, w) in
  let committing := run_all ctx (deferred calls) w in
  let undoing := run_all ctx (deferredFail calls) (fst committing) in
  (exists o', fst (fst r) = h ++ [o'] /\ phase o' = Finished)
  /\ (snd (fst r), snd r)
     = match snd committing with
       | Normal _ => (fst committing, Normal tt)
       | Throw e =>
           (fst undoing,
            match snd undoing with
            | Normal _ => Throw (TransactionFailed e)
            | Throw r' => Throw r'
            end)
       end.
Proof.
  intros Hnone Hreg. cbn zeta.
  destruct (@changeSet_run_begins ctx (script calls (Normal v)) h w Hnone)
    as [-> Hb].
  destruct (@script_registers calls h (ChangeSetImpl.new W ctx) w Hreg eq_refl)
    as (o1 & Hs & Hc & Hr & Hd & Hx & Hi).
  cbn [ChangeSetImpl.new ChangeSetImpl.commitFns ChangeSetImpl.rollbackFns
       ChangeSetImpl.ctx app] in Hc, Hr, Hx.
  assert (Hfn : script calls (Normal v)
                  (withChangeSet withValue key ctx (List.length h))
                  (List.length h) (h ++ [ChangeSetImpl.new W ctx], w)
                = ((h ++ [o1], w), Normal v)).
  { unfold script, bind. now rewrite Hs. }
  pose proof (@commit_last h o1 w Hd) as Hcm. rewrite Hx, Hc in Hcm.
  destruct (run_all ctx (deferred calls) w) as [w1 [[]|e]] eqn:Hrun;
    cbn [fst snd is_ok] in *.
  - rewrite (@run_txn_returns _ _ _ (ChangeSet_Txn W Ctx)
               (TxnRunnerImpl.new (csAccessor W value withValue key)) ctx
               (csBuilder W Ctx) None _ _ _ _ _ _ _ Hb Hfn Hcm).
    cbn [fst snd]. split; [|reflexivity].
    eexists. split; [reflexivity|]. reflexivity.
  - assert (Htry : @TxnRunnerImpl.try_block_throws _ _ _ (ChangeSet_Txn W Ctx)
                     (TxnRunnerImpl.new (csAccessor W value withValue key))
                     ctx (script calls (Normal v)) (List.length h)
                     (h ++ [ChangeSetImpl.new W ctx], w)
                     (h ++ [ChangeSetImpl.committed o1 false], w1) e).
    { right. exists v, (h ++ [o1], w). split; [exact Hfn | exact Hcm]. }
    rewrite (@run_txn_throws _ _ _ (ChangeSet_Txn W Ctx)
               (TxnRunnerImpl.new (csAccessor W value withValue key)) ctx
               (csBuilder W Ctx) None _ _ _ _ _ _ Hb Htry).
    rewrite rollback_last by (right; reflexivity).
    cbn [fst snd ChangeSetImpl.committed ChangeSetImpl.ctx
         ChangeSetImpl.rollbackFns ChangeSetImpl.set_ignoreStatus
         ChangeSetImpl.set_done].
    rewrite Hx, Hr. split.
    + eexists. split; [reflexivity|]. reflexivity.
    + now destruct (run_all ctx (deferredFail calls) w1) as [w2 [[]|r']].
Qed.
Lemma commit_last_done h o w :
  ChangeSetImpl.done o = true ->
  @commit _ _ _ (ChangeSet_Txn W Ctx) (List.length h) None (h ++ [o], w)
  = ((h ++ [o], w), Throw AlreadyCompletedError).
Proof.
  intros Hd. cbn [commit ChangeSet_Txn]. rewrite on_last.
  unfold ChangeSetImpl.commit_with. now rewrite commit_done.
Qed.

Lemma rollback_last_done h o w :
  ChangeSetImpl.done o = true -> ChangeSetImpl.ignoreStatus o = false ->
  @rollback _ _ _ (ChangeSet_Txn W Ctx) (List.length h) None (h ++ [o], w)
  = ((h ++ [o], w), Throw AlreadyCompletedError).
Proof.
  intros Hd Hi. cbn [rollback ChangeSet_Txn]. rewrite on_last.
  unfold ChangeSetImpl.rollback_with. now rewrite rollback_done.
Qed.

Lemma for_of_app (St X A : Type) (xs ys : list X) (body : X -> M St A) x :
  for_of (xs ++ ys) body x
  = (for_of xs body ;; for_of ys body) x.
Proof.
  assert (E : forall B C (m : M St B) (k : B -> M St C) y,
             bind m k y
             = match m y with
               | (y1, Normal b) => k b y1
               | (y1, Throw e) => (y1, Throw e)
               end) by reflexivity.
  revert x. induction xs as [|a xs IH]; intros x.
  - cbn [app for_of]. rewrite E. reflexivity.
  - cbn [app for_of]. rewrite !E.
    destruct (body a x) as [x1 [v|e]]; [|reflexivity].
    rewrite IH, E. reflexivity.
Qed.

(** A run of [changeSet()] whose callback registers actions and then
    throws [e]: no commit action is called; the failure actions are called
    in the order they were registered, on the context the run was called
    on; and the run throws the transaction-failed error of [e] (or what a
    failure action threw), leaving the set complete with its window shut. *)
Theorem changeSet_run_undoes_when_callback_throws calls e ctx h w :
  getChangeSet value key ctx = None ->
  registers calls ->
  let r := run (changeSet W value withValue key) ctx
               (ArgFn (script calls (Throw e))) None (h, w) in
  let undoing := run_all ctx (deferredFail calls) w in
  (exists o', fst (fst r) = h ++ [o'] /\ phase o' = Finished)
  /\ (snd (fst r), snd r)
     = (fst undoing,
        match snd undoing with
        | Normal _ => Throw (TransactionFailed e)
        | Throw r' => Throw r'
        end).
Proof.
  intros Hnone Hreg. cbn zeta.
  destruct (@changeSet_run_begins ctx (script calls (Throw e)) h w Hnone)
    as [-> Hb].
  destruct (@script_registers calls h (ChangeSetImpl.new W ctx) w Hreg eq_refl)
    as (o1 & Hs & Hc & Hr & Hd & Hx & Hi).
  cbn [ChangeSetImpl.new ChangeSetImpl.commitFns ChangeSetImpl.rollbackFns
       ChangeSetImpl.ctx app] in Hc, Hr, Hx.
  assert (Htry : @TxnRunnerImpl.try_block_throws _ _ _ (ChangeSet_Txn W Ctx)
                   (TxnRunnerImpl.new (csAccessor W value withValue key))
                   ctx (script calls (Throw e)) (List.length h)
                   (h ++ [ChangeSetImpl.new W ctx], w) (h ++ [o1], w) e).
  { left. unfold script, bind.
    cbn [TxnRunnerImpl._withTxn TxnRunnerImpl.new csAccessor withTxn].
    now rewrite Hs. }
  rewrite (@run_txn_throws _ _ _ (ChangeSet_Txn W Ctx)
             (TxnRunnerImpl.new (csAccessor W value withValue key)) ctx
             (csBuilder W Ctx) None _ _ _ _ _ _ Hb Htry).
  rewrite rollback_last by (left; exact Hd).
  cbn [fst snd]. rewrite Hx, Hr. split.
  - eexists. split; [reflexivity|]. reflexivity.
  - now destruct (run_all ctx (deferredFail calls) w) as [w2 [[]|r']].
Qed.

(** A run of [changeSet()] whose callback commits the set itself: when the
    commit actions all return, the callback's [commit] returns, and then
    the runner's own [commit] is turned down and so is the [rollback] of
    its [catch] block, so that the run throws the already-completed error
    itself, not wrapped.  The commit actions stay executed, once, and no
    failure action is called. *)
Theorem changeSet_run_after_own_commit calls v ctx h w w1 :
  getChangeSet value key ctx = None ->
  registers calls ->
  chain ctx (deferred calls) w w1 ->
  exists o',
    run (changeSet W value withValue key) ctx
        (ArgFn (script (calls ++ [Commit]) (Normal v))) None (h, w)
    = ((h ++ [o'], w1), Throw AlreadyCompletedError)
    /\ phase o' = Finished.
Proof.
  intros Hnone Hreg Hchain.
  destruct (@changeSet_run_begins ctx (script (calls ++ [Commit]) (Normal v))
              h w Hnone) as [-> Hb].
  destruct (@script_registers calls h (ChangeSetImpl.new W ctx) w Hreg eq_refl)
    as (o1 & Hs & Hc & Hr & Hd & Hx & Hi).
  cbn [ChangeSetImpl.new ChangeSetImpl.commitFns ChangeSetImpl.rollbackFns
       ChangeSetImpl.ctx app] in Hc, Hr, Hx.
  exists (ChangeSetImpl.committed o1 true). split; [|reflexivity].
  assert (Hfn : script (calls ++ [Commit]) (Normal v)
                  (withChangeSet withValue key ctx (List.length h))
                  (List.length h) (h ++ [ChangeSetImpl.new W ctx], w)
                = ((h ++ [ChangeSetImpl.committed o1 true], w1), Normal v)).
  { unfold script. unfold bind at 1. rewrite for_of_app.
    unfold bind at 1. rewrite Hs. cbn [for_of]. unfold bind at 1.
    rewrite on_last. cbn [perform]. rewrite commit_open by assumption.
    rewrite Hx, Hc, (run_all_chain Hchain). reflexivity. }
  assert (Htry : @TxnRunnerImpl.try_block_throws _ _ _ (ChangeSet_Txn W Ctx)
                   (TxnRunnerImpl.new (csAccessor W value withValue key))
                   ctx (script (calls ++ [Commit]) (Normal v)) (List.length h)
                   (h ++ [ChangeSetImpl.new W ctx], w)
                   (h ++ [ChangeSetImpl.committed o1 true], w1)
                   AlreadyCompletedError).
  { right. exists v, (h ++ [ChangeSetImpl.committed o1 true], w1).
    split; [exact Hfn|]. now apply commit_last_done. }
  rewrite (@run_txn_throws _ _ _ (ChangeSet_Txn W Ctx)
             (TxnRunnerImpl.new (csAccessor W value withValue key)) ctx
             (csBuilder W Ctx) None _ _ _ _ _ _ Hb Htry).
  now rewrite rollback_last_done.
Qed.

(** A change set cannot begin transactions, so, with a context carrier
    that reads under the key what was set under it, a run of [changeSet()]
    inside the callback of a run of [changeSet()], on the context the outer
    run gave its callback, throws the nested-transaction error: the inner
    callback is not called and no second set is made; the outer run rolls
    its (empty) set back and throws the transaction-failed error of the
    nested-transaction error. *)
Theorem changeSet_run_rejects_nested_run fn ctx h w :
  (forall c r, value (withValue c key r) key = Some r) ->
  getChangeSet value key ctx = None ->
  run (changeSet W value withValue key) ctx
      (ArgFn (nested (run (changeSet W value withValue key)) fn)) None (h, w)
  = ((h ++ [ChangeSetImpl.rolledBack (ChangeSetImpl.new W ctx)], w),
     Throw (TransactionFailed NestedTransactionError)).
Proof.
  intros value_withValue Hnone.
  destruct (@changeSet_run_begins ctx
              (nested (run (changeSet W value withValue key)) fn) h w Hnone)
    as [-> Hb].
  assert (Htry : @TxnRunnerImpl.try_block_throws _ _ _ (ChangeSet_Txn W Ctx)
                   (TxnRunnerImpl.new (csAccessor W value withValue key))
                   ctx (nested (run (changeSet W value withValue key)) fn)
                   (List.length h)
                   (h ++ [ChangeSetImpl.new W ctx], w)
                   (h ++ [ChangeSetImpl.new W ctx], w)
                   NestedTransactionError).
  { left. unfold nested, bind, changeSet, txn. cbn [run].
    unfold TxnRunnerImpl.run, TxnRunnerImpl.run_checks.
    cbn [TxnRunnerImpl.resolve TxnRunnerImpl.new TxnRunnerImpl._getTxn
         TxnRunnerImpl._getTransactable TxnRunnerImpl._withTxn
         getCsBuilder csAccessor getTransactable getTxn withTxn].
    unfold getChangeSet, withChangeSet. rewrite value_withValue.
    reflexivity. }
  rewrite (@run_txn_throws _ _ _ (ChangeSet_Txn W Ctx)
             (TxnRunnerImpl.new (csAccessor W value withValue key)) ctx
             (csBuilder W Ctx) None _ _ _ _ _ _ Hb Htry).
  rewrite rollback_last by (left; reflexivity). reflexivity.
Qed.

(** [in] joins the change set of the enclosing run: with a context
    carrier that reads under the key what was set under it, a callback that
    passes its context on to [in] does to the set, to the world and to the
    outcome of the run what the callback given to that [in] would have done
    in its place. *)
Theorem changeSet_in_joins_enclosing_run fn ctx h w :
  (forall c r, value (withValue c key r) key = Some r) ->
  getChangeSet value key ctx = None ->
  in_ (changeSet W value withValue key) ctx
      (ArgFn (nested (in_ (changeSet W value withValue key)) fn)) None (h, w)
  = run (changeSet W value withValue key) ctx (ArgFn fn) None (h, w).
Proof.
  intros value_withValue Hnone.
  assert (Hin : in_ (changeSet W value withValue key) ctx
                  (ArgFn (nested (in_ (changeSet W value withValue key)) fn))
                  None (h, w)
                = run (changeSet W value withValue key) ctx
                    (ArgFn (nested (in_ (changeSet W value withValue key)) fn))
                    None (h, w)).
  { unfold changeSet at 1 3, txn. cbn [in_ run]. unfold TxnRunnerImpl.in_.
    cbn [TxnRunnerImpl.resolve TxnRunnerImpl.new TxnRunnerImpl._getTxn
         csAccessor getTxn TxnRunnerImpl.arg_of].
    now rewrite Hnone. }
  rewrite Hin.
  destruct (@changeSet_run_begins ctx
              (nested (in_ (changeSet W value withValue key)) fn) h w Hnone)
    as [-> Hb].
  destruct (@changeSet_run_begins ctx fn h w Hnone) as [-> _].
  unfold TxnRunnerImpl.run_txn. unfold bind at 1 4. rewrite Hb.
  unfold try_catch.
  assert (Hfn : forall st,
             nested (in_ (changeSet W value withValue key)) fn
                    (withChangeSet withValue key ctx (List.length h))
                    (List.length h) st
             = (fst (fn (withChangeSet withValue key ctx (List.length h))
                        (List.length h) st),
                match snd (fn (withChangeSet withValue key ctx (List.length h))
                              (List.length h) st) with
                | Normal _ => Normal JUndefined
                | Throw e => Throw e
                end)).
  { intros st. unfold nested, changeSet, txn. cbn [in_].
    unfold TxnRunnerImpl.in_.
    cbn [TxnRunnerImpl.resolve TxnRunnerImpl.new TxnRunnerImpl._getTxn
         csAccessor getTxn].
    unfold getChangeSet at 1, withChangeSet at 1. rewrite value_withValue.
    unfold TxnRunnerImpl.call, bind, ret.
    now destruct (fn _ _ st) as [st1 [v|e]]. }
  cbn [TxnRunnerImpl._withTxn TxnRunnerImpl.new csAccessor withTxn].
  unfold bind at 1 3. rewrite Hfn.
  now destruct (fn _ _ (h ++ [ChangeSetImpl.new W ctx], w)) as [st1 [v|e]].
Qed.
End ChangeSetRunnerFacts.

(** ** [txnChangeSet(accessor)]: runs of the runner of transaction change sets *)

Section TxnChangeSetRunnerFacts.
Context {S Ctx T : Type} {ops : Txn S Ctx T}.
Variable Key : Type.
Variable value : Ctx -> Key -> option nat.
Variable withValue : Ctx -> Key -> nat -> Ctx.
Variable key : Key.
Implicit Types (h : Store (TxnChangeSetImpl.t S Ctx T)) (s : S) (ctx : Ctx)
         (regs : list (Registration (S:=S) (Ctx:=Ctx) (T:=T)))
         (o : TxnChangeSetImpl.t S Ctx T) (acc : TxnAccessor S Ctx T).

(** [commit] on an open set held by the runner of an accessor, by its two
    phases. *)
Lemma txn_commit_by_phases o acc s :
  TxnChangeSetImpl._txnRunner o = txn acc ->
  ChangeSetImpl.done (TxnChangeSetImpl.super o) = false ->
  let c := ChangeSetImpl.ctx (TxnChangeSetImpl.super o) in
  let inner := txn_phase acc c (TxnChangeSetImpl._commitTxn o) s in
  let r := run_all c (ChangeSetImpl.commitFns (TxnChangeSetImpl.super o))
                   (fst inner) in
  TxnChangeSetImpl.commit (o, s)
  = match snd inner with
    | Throw e => ((TxnChangeSetImpl.committed o false, fst inner), Throw e)
    | Normal _ =>
        ((TxnChangeSetImpl.committed o (is_ok (snd r)), fst r), snd r)
    end.
Proof.
  intros Hrn Hopen. cbn zeta.
  destruct (TxnChangeSetImpl._commitTxn o) as [|fn fns] eqn:Hfns.
  - cbn [txn_phase ret fst snd].
    unfold TxnChangeSetImpl.commit, TxnChangeSetImpl.checkStatus,
      TxnChangeSetImpl.inherited, bind.
    rewrite checkStatus_open by assumption.
    cbn [TxnChangeSetImpl.super update this]. destruct o as [b tf rn].
    cbn [TxnChangeSetImpl._commitTxn TxnChangeSetImpl.super
         TxnChangeSetImpl.set_super] in *. subst tf.
    cbn [List.length Nat.ltb Nat.leb ret TxnChangeSetImpl.super
         TxnChangeSetImpl.set_super].
    rewrite run_commitFns_eq. reflexivity.
  - rewrite txn_commit_open by (assumption || (rewrite Hfns; discriminate)).
    cbn zeta. rewrite Hrn. cbn [txn_phase].
    unfold TxnChangeSetImpl.run_commitTxn, run_all_txn. rewrite Hfns.
    destruct (run (txn acc) _ _ None s) as [s1 [[]|e]]; reflexivity.
Qed.

(** A callback that only registers leaves the new set open, with each list
    of actions in the order of the registrations. *)
Lemma registering_registers regs h o s :
  ChangeSetImpl.done (TxnChangeSetImpl.super o) = false ->
  exists o',
    for_of regs (fun reg => on (List.length h) (register reg)) (h ++ [o], s)
    = ((h ++ [o'], s), Normal tt)
    /\ ChangeSetImpl.commitFns (TxnChangeSetImpl.super o')
       = ChangeSetImpl.commitFns (TxnChangeSetImpl.super o) ++ toCommit regs
    /\ ChangeSetImpl.rollbackFns (TxnChangeSetImpl.super o')
       = ChangeSetImpl.rollbackFns (TxnChangeSetImpl.super o) ++ toUndo regs
    /\ TxnChangeSetImpl._commitTxn o'
       = TxnChangeSetImpl._commitTxn o ++ inTxn regs
    /\ ChangeSetImpl.done (TxnChangeSetImpl.super o') = false
    /\ ChangeSetImpl.ctx (TxnChangeSetImpl.super o')
       = ChangeSetImpl.ctx (TxnChangeSetImpl.super o)
    /\ ChangeSetImpl.ignoreStatus (TxnChangeSetImpl.super o')
       = ChangeSetImpl.ignoreStatus (TxnChangeSetImpl.super o)
    /\ TxnChangeSetImpl._txnRunner o' = TxnChangeSetImpl._txnRunner o.
Proof.
  revert o. induction regs as [|reg regs IH]; intros o Hopen.
  - exists o. cbn. rewrite !app_nil_r. repeat split; auto.
  - cbn [for_of]. unfold bind. rewrite on_last.
    destruct reg as [f|f|g]; cbn [register].
    + unfold TxnChangeSetImpl.defer, TxnChangeSetImpl.inherited.
      rewrite defer_open by assumption. cbn [fst snd].
      destruct (IH (TxnChangeSetImpl.set_super
                      (ChangeSetImpl.push_commitFns f (TxnChangeSetImpl.super o)) o)
                   Hopen)
        as (o' & -> & Hc & Hr & Ht & Hd & Hx & Hi & Hn).
      exists o'. repeat split; auto.
      rewrite Hc. cbn. now rewrite <- app_assoc.
    + unfold TxnChangeSetImpl.deferFail, TxnChangeSetImpl.inherited.
      rewrite deferFail_open by assumption. cbn [fst snd].
      destruct (IH (TxnChangeSetImpl.set_super
                      (ChangeSetImpl.push_rollbackFns f (TxnChangeSetImpl.super o)) o)
                   Hopen)
        as (o' & -> & Hc & Hr & Ht & Hd & Hx & Hi & Hn).
      exists o'. repeat split; auto.
      rewrite Hr. cbn. now rewrite <- app_assoc.
    + cbn [TxnChangeSetImpl.deferTxn update fst snd].
      destruct (IH (TxnChangeSetImpl.push_commitTxn g o) Hopen)
        as (o' & -> & Hc & Hr & Ht & Hd & Hx & Hi & Hn).
      exists o'. repeat split; auto.
      rewrite Ht. cbn. now rewrite <- app_assoc.
Qed.

(** A run of [txnChangeSet(accessor)] whose callback registers actions of
    the three kinds and returns.  The transactional phase comes first: the
    runner of [accessor] run, on the context the outer run was called on,
    on the live list of transactional actions: those the callback has
    registered, in order, and after them those that they register while
    the loop runs (no run at all when the callback has registered none).
    When it returns, the commit actions
    are called in order from the state it left, and the run returns when
    they do.  When the transactional phase throws [e], no commit action is
    called; when a commit action throws [e], the later ones are not.  In
    both cases the failure actions are called, once, in order, from the
    state of the failure, and the run throws the transaction-failed error
    of [e] (or what a failure action threw).  The set is left complete. *)
Theorem txnChangeSet_run_by_phases regs v acc ctx h s :
  value ctx key = None ->
  let r := run (txnChangeSet value withValue key acc) ctx
               (ArgFn (registering regs (Normal v))) None (h, s) in
  let inner := txn_phase acc ctx (inTxn regs) s in
  let committing := run_all ctx (toCommit regs) (fst inner) in
  let failed (e : JsVal) (s' : S) :=
    (fst (run_all ctx (toUndo regs) s'),
     match snd (run_all ctx (toUndo regs) s') with
     | Normal _ => Throw (TransactionFailed e)
     | Throw r' => Throw r'
     end) in
  (exists o', fst (fst r) = h ++ [o']
              /\ phase (TxnChangeSetImpl.super o') = Finished)
  /\ (snd (fst r), snd r)
     = match snd inner with
       | Throw e => failed e (fst inner)
       | Normal _ =>
           match snd committing with
           | Normal _ => (fst committing, Normal tt)
           | Throw e => failed e (fst committing)
           end
       end.
Proof.
  intros Hnone. cbn zeta.
  set (self := TxnRunnerImpl.new (makeTxnCsAccessor value withValue key acc)).
  set (fn := registering regs (Normal v)).
  set (o0 := TxnChangeSetImpl.new ctx (txn acc)).
  assert (Hrun : run (txnChangeSet value withValue key acc) ctx (ArgFn fn)
                     None (h, s)
                 = @TxnRunnerImpl.run_txn _ _ _
                     (TxnChangeSet_Txn (S:=S) (Ctx:=Ctx) (T:=T)) self
                     {| beginTxn := fun c _ =>
                          alloc (TxnChangeSetImpl.new c (txn acc)) |}
                     ctx None fn (h, s)).
  { unfold txnChangeSet, txn. cbn [run].
    unfold TxnRunnerImpl.run, TxnRunnerImpl.run_checks.
    cbn [TxnRunnerImpl.resolve TxnRunnerImpl.new TxnRunnerImpl._getTxn
         TxnRunnerImpl._getTransactable makeTxnCsAccessor
         getTransactable getTxn].
    now rewrite Hnone. }
  rewrite Hrun. clear Hrun.
  assert (Hb : beginTxn {| beginTxn := fun c (_ : option TxnOptions) =>
                             alloc (W:=S) (TxnChangeSetImpl.new c (txn acc)) |}
                        ctx None (h, s)
               = ((h ++ [o0], s), Normal (List.length h))) by reflexivity.
  destruct (@registering_registers regs h o0 s eq_refl)
    as (o1 & Hs & Hc & Hr & Ht & Hd & Hx & Hi & Hn).
  cbn [o0 TxnChangeSetImpl.new TxnChangeSetImpl.super ChangeSetImpl.new
       ChangeSetImpl.commitFns ChangeSetImpl.rollbackFns ChangeSetImpl.ctx
       TxnChangeSetImpl._commitTxn TxnChangeSetImpl._txnRunner
       ChangeSetImpl.ignoreStatus app] in Hc, Hr, Ht, Hx, Hi, Hn.
  assert (Hfn : fn (TxnRunnerImpl._withTxn self ctx (List.length h))
                   (List.length h) (h ++ [o0], s)
                = ((h ++ [o1], s), Normal v)).
  { unfold fn, registering, bind. now rewrite Hs. }
  pose proof (@txn_commit_by_phases o1 acc s Hn Hd) as Hcm.
  cbn zeta in Hcm. rewrite Hx, Ht, Hc in Hcm.
  assert (Hrb : forall s',
             @rollback _ _ _ (TxnChangeSet_Txn (S:=S) (Ctx:=Ctx) (T:=T))
                       (List.length h) None
                       (h ++ [TxnChangeSetImpl.committed o1 false], s')
             = ((h ++ [TxnChangeSetImpl.rolledBack o1],
                 fst (run_all ctx (toUndo regs) s')),
                snd (run_all ctx (toUndo regs) s'))).
  { intros s'. cbn [rollback TxnChangeSet_Txn]. rewrite on_last.
    unfold TxnChangeSetImpl.rollback, TxnChangeSetImpl.inherited.
    cbn [TxnChangeSetImpl.committed TxnChangeSetImpl.super
         TxnChangeSetImpl.set_super].
    rewrite rollback_window by reflexivity.
    cbn [fst snd ChangeSetImpl.committed ChangeSetImpl.ctx
         ChangeSetImpl.rollbackFns ChangeSetImpl.set_ignoreStatus
         ChangeSetImpl.set_done].
    rewrite Hx, Hr. reflexivity. }
  assert (Hthrow : forall s' e,
             TxnChangeSetImpl.commit (o1, s)
             = ((TxnChangeSetImpl.committed o1 false, s'), Throw e) ->
             @TxnRunnerImpl.run_txn _ _ _
               (TxnChangeSet_Txn (S:=S) (Ctx:=Ctx) (T:=T)) self
               {| beginTxn := fun c _ =>
                    alloc (TxnChangeSetImpl.new c (txn acc)) |}
               ctx None fn (h, s)
             = ((h ++ [TxnChangeSetImpl.rolledBack o1],
                 fst (run_all ctx (toUndo regs) s')),
                match snd (run_all ctx (toUndo regs) s') with
                | Normal _ => Throw (TransactionFailed e)
                | Throw r' => Throw r'
                end)).
  { intros s' e Hce.
    assert (Htry : @TxnRunnerImpl.try_block_throws _ _ _
                     (TxnChangeSet_Txn (S:=S) (Ctx:=Ctx) (T:=T)) self ctx fn
                     (List.length h) (h ++ [o0], s)
                     (h ++ [TxnChangeSetImpl.committed o1 false], s') e).
    { right. exists v, (h ++ [o1], s). split; [exact Hfn|].
      cbn [commit TxnChangeSet_Txn]. rewrite on_last, Hce. reflexivity. }
    rewrite (@run_txn_throws _ _ _ _ self ctx _ None _ _ _ _ _ _ Hb Htry).
    rewrite Hrb. cbn [fst snd].
    now destruct (run_all ctx (toUndo regs) s') as [s2 [[]|r']]. }
  destruct (txn_phase acc ctx (inTxn regs) s) as [s1 [[]|e]];
    cbn [fst snd] in *.
  - destruct (run_all ctx (toCommit regs) s1) as [s2 [[]|e]];
      cbn [fst snd is_ok] in *.
    + assert (Hcl : @commit _ _ _ (TxnChangeSet_Txn (S:=S) (Ctx:=Ctx) (T:=T))
                      (List.length h) None (h ++ [o1], s)
                    = ((h ++ [TxnChangeSetImpl.committed o1 true], s2),
                       Normal tt)).
      { cbn [commit TxnChangeSet_Txn]. rewrite on_last, Hcm. reflexivity. }
      rewrite (@run_txn_returns _ _ _ _ self ctx _ None fn _ _ _ _ _ _
                 Hb Hfn Hcl).
      split; [|reflexivity]. eexists. split; reflexivity.
    + rewrite (Hthrow s2 e Hcm). split; [|reflexivity].
      eexists. split; reflexivity.
  - rewrite (Hthrow s1 e Hcm). split; [|reflexivity].
    eexists. split; reflexivity.
Qed.
End TxnChangeSetRunnerFacts.

(** * The further properties on concrete inputs *)

Lemma call_moves_phase_witness :
  let o := ChangeSetImpl.committed demoChangeSet true in
  accepts (S:=Log) (Ctx:=string) (phase o) Commit = false
  /\ perform Commit (o, ["done"]) = ((o, ["done"]), Throw AlreadyCompletedError)
  /\ accepts (S:=Log) (Ctx:=string) (phase demoChangeSet) (Defer (say "d"))
     = true
  /\ snd (perform (Defer (say "d")) (demoChangeSet, ["done"])) = Normal tt.
Proof.
  cbn zeta. split; [reflexivity|]. split.
  - apply (proj1 (proj2 (@call_moves_phase Log string
                           (ChangeSetImpl.committed demoChangeSet true)
                           ["done"] Commit))).
    reflexivity.
  - split; [reflexivity|].
    apply (proj2 (proj2 (@call_moves_phase Log string demoChangeSet ["done"]
                           (Defer (say "d")))) eq_refl).
Defined.

Lemma finished_set_is_inert_witness :
  let o := ChangeSetImpl.rolledBack demoChangeSet in
  phase o = Finished
  /\ perform_all [Commit; Defer (say "late"); Rollback; DeferFail (say "late")]
                 (o, ["w"])
     = ((o, ["w"]),
        [Throw AlreadyCompletedError; Throw AlreadyCompletedError;
         Throw AlreadyCompletedError; Throw AlreadyCompletedError]).
Proof.
  cbn zeta. split; [reflexivity|].
  apply (@finished_set_is_inert Log string
           [Commit; Defer (say "late"); Rollback; DeferFail (say "late")]
           (ChangeSetImpl.rolledBack demoChangeSet) ["w"] eq_refl).
Defined.

Lemma completed_set_is_frozen_witness :
  let o := ChangeSetImpl.committed demoChangeSet false in
  let o' := fst (fst (perform_all [Defer (say "late"); Rollback; Commit]
                                  (o, []))) in
  ChangeSetImpl.done o = true
  /\ ChangeSetImpl.done o' = true
  /\ ChangeSetImpl.commitFns o' = ChangeSetImpl.commitFns o
  /\ ChangeSetImpl.rollbackFns o' = ChangeSetImpl.rollbackFns o.
Proof.
  cbn zeta. split; [reflexivity|].
  apply (proj2 (@completed_set_is_frozen Log string
                  [Defer (say "late"); Rollback; Commit]
                  (ChangeSetImpl.committed demoChangeSet false) [])
               eq_refl).
Defined.

Lemma registrations_keep_call_order_witness :
  let calls := [Defer (say "a"); DeferFail (say "undo a"); Defer (say "b")] in
  ChangeSetImpl.done (ChangeSetImpl.new Log "ctx") = false
  /\ registers calls
  /\ exists o',
      perform_all calls (ChangeSetImpl.new Log "ctx", [])
      = ((o', []), [Normal tt; Normal tt; Normal tt])
      /\ ChangeSetImpl.commitFns o' = [say "a"; say "b"]
      /\ ChangeSetImpl.rollbackFns o' = [say "undo a"].
Proof.
  cbn zeta.
  assert (Hreg : registers (S:=Log) (Ctx:=string)
                   [Defer (say "a"); DeferFail (say "undo a"); Defer (say "b")])
    by (repeat constructor).
  split; [reflexivity|]. split; [exact Hreg|].
  destruct (@registrations_keep_call_order Log string _
              (ChangeSetImpl.new Log "ctx") [] eq_refl Hreg)
    as (o' & Hrun & Hc & Hr & _).
  exists o'. split; [exact Hrun|]. split; [exact Hc | exact Hr].
Defined.

Lemma failed_txn_phase_skips_commit_actions_witness :
  ChangeSetImpl.done (TxnChangeSetImpl.super failingTxnChangeSet) = false
  /\ TxnChangeSetImpl._commitTxn failingTxnChangeSet <> []
  /\ TxnChangeSetImpl.commit (failingTxnChangeSet, [])
     = ((TxnChangeSetImpl.committed failingTxnChangeSet false,
         ["begin t"; "work in t"; "rollback t"]),
        Throw (TransactionFailed on_purpose))
  /\ TxnChangeSetImpl.rollback
       (TxnChangeSetImpl.committed failingTxnChangeSet false,
        ["begin t"; "work in t"; "rollback t"])
     = ((TxnChangeSetImpl.rolledBack failingTxnChangeSet,
         ["begin t"; "work in t"; "rollback t"; "Called error callback"]),
        Normal tt).
Proof.
  assert (Hne : TxnChangeSetImpl._commitTxn failingTxnChangeSet <> [])
    by discriminate.
  split; [reflexivity|]. split; [exact Hne|].
  destruct (@failed_txn_phase_skips_commit_actions Log DemoCtx DemoTxn
              failingTxnChangeSet [] ["begin t"; "work in t"; "rollback t"]
              (TransactionFailed on_purpose) eq_refl Hne eq_refl)
    as (Hcommit & Hrollback & _).
  split; [exact Hcommit|]. apply Hrollback.
Defined.

Lemma txn_phase_precedes_commit_actions_witness :
  ChangeSetImpl.done (TxnChangeSetImpl.super demoTxnChangeSet) = false
  /\ TxnChangeSetImpl._commitTxn demoTxnChangeSet <> []
  /\ TxnChangeSetImpl.commit (demoTxnChangeSet, [])
     = ((TxnChangeSetImpl.committed demoTxnChangeSet true,
         ["begin t"; "work in t"; "commit t"; "Pushed c!"]), Normal tt).
Proof.
  assert (Hne : TxnChangeSetImpl._commitTxn demoTxnChangeSet <> [])
    by discriminate.
  split; [reflexivity|]. split; [exact Hne|].
  apply (@txn_phase_precedes_commit_actions Log DemoCtx DemoTxn
           demoTxnChangeSet [] ["begin t"; "work in t"; "commit t"]
           eq_refl Hne eq_refl).
Defined.

Lemma completed_set_calls_ignore_txn_actions_witness :
  ChangeSetImpl.done (TxnChangeSetImpl.super completedTxnChangeSet) = true
  /\ (let o' := fst (fst (TxnChangeSetImpl.deferTxn (plain work)
                            (completedTxnChangeSet, []))) in
      TxnChangeSetImpl._commitTxn o' = [plain work]
      /\ TxnChangeSetImpl.commit (o', [])
         = ((o', []), Throw AlreadyCompletedError)).
Proof.
  split; [reflexivity|].
  destruct (@completed_set_calls_ignore_txn_actions Log DemoCtx DemoTxn
              completedTxnChangeSet [] (plain work) eq_refl)
    as (_ & Hfns & _ & Hcommit & _).
  cbn zeta. split; [exact Hfns | exact Hcommit].
Defined.

Lemma run_commits_on_success_witness :
  let self := TxnRunnerImpl.new (demoAccessor plainTxn) in
  TxnRunnerImpl.run_checks self rootCtx (ArgFn work) None
  = inr (demoSource plainTxn, None, work)
  /\ TxnRunnerImpl.run self rootCtx (ArgFn work) None []
     = (["begin t"; "work in t"; "commit t"], Normal tt).
Proof.
  cbn zeta. split; [reflexivity|].
  apply (proj1 (@run_commits_on_success Log DemoCtx DemoTxn DemoTxn_Txn
                  (TxnRunnerImpl.new (demoAccessor plainTxn)) rootCtx
                  (ArgFn work) None [] (demoSource plainTxn) None work
                  plainTxn ["begin t"] ["begin t"; "work in t"]
                  ["begin t"; "work in t"; "commit t"] JUndefined
                  eq_refl eq_refl eq_refl eq_refl)).
Defined.

Lemma beginTxn_error_is_not_wrapped_witness :
  let self := TxnRunnerImpl.new trappedAccessor in
  (exists src, TxnRunnerImpl.run_checks self rootCtx (ArgFn work) None
               = inr (src, None, work)
               /\ beginTxn src rootCtx None []
                  = (["begin"],
                     Throw (new_Error "No transactions for you!" JUndefined)))
  /\ TxnRunnerImpl.run self rootCtx (ArgFn work) None []
     = (["begin"], Throw (new_Error "No transactions for you!" JUndefined)).
Proof.
  cbn zeta. split.
  - eexists. split; reflexivity.
  - apply (proj1 (@beginTxn_error_is_not_wrapped Log DemoCtx DemoTxn DemoTxn_Txn
                    (TxnRunnerImpl.new trappedAccessor) rootCtx
                    (ArgFn work) None [] _ None work ["begin"]
                    (new_Error "No transactions for you!" JUndefined)
                    eq_refl eq_refl)).
Defined.

(** The action registered during [commit] runs in the transaction, after
    the two that were registered before [commit]. *)
Lemma txn_actions_run_in_one_transaction_witness :
  TxnChangeSetImpl._txnRunner lateTxnChangeSet = txn (demoAccessor plainTxn)
  /\ ChangeSetImpl.done (TxnChangeSetImpl.super lateTxnChangeSet) = false
  /\ TxnChangeSetImpl._commitTxn lateTxnChangeSet
     = [workThenDefer lateWork; plain work]
  /\ getTransactable (demoAccessor plainTxn) rootCtx
     = Some (demoSource plainTxn)
  /\ getTxn (demoAccessor plainTxn) rootCtx = None
  /\ TxnChangeSetImpl.commit (lateTxnChangeSet, [])
     = ((TxnChangeSetImpl.committed lateTxnChangeSet true,
         ["begin t"; "work in t"; "work in t"; "late work in t"; "commit t";
          "Pushed c!"]), Normal tt).
Proof.
  assert (Hne : TxnChangeSetImpl._commitTxn lateTxnChangeSet <> [])
    by discriminate.
  repeat (split; [reflexivity|]).
  apply (@txn_actions_run_in_one_transaction Log DemoCtx DemoTxn DemoTxn_Txn
           lateTxnChangeSet (demoAccessor plainTxn) (demoSource plainTxn)
           plainTxn [] ["begin t"]
           ["begin t"; "work in t"; "work in t"; "late work in t"]
           ["begin t"; "work in t"; "work in t"; "late work in t"; "commit t"]
           eq_refl eq_refl Hne eq_refl eq_refl eq_refl eq_refl eq_refl).
Defined.

(** The action registered during [commit] throws: the transaction is rolled
    back, and no commit action is called. *)
Lemma failing_txn_loop_rolls_back_witness :
  TxnChangeSetImpl._txnRunner lateFailingTxnChangeSet
  = txn (demoAccessor plainTxn)
  /\ ChangeSetImpl.done (TxnChangeSetImpl.super lateFailingTxnChangeSet) = false
  /\ TxnChangeSetImpl._commitTxn lateFailingTxnChangeSet
     = [workThenDefer failing; plain work]
  /\ TxnChangeSetImpl.commit (lateFailingTxnChangeSet, [])
     = ((TxnChangeSetImpl.committed lateFailingTxnChangeSet false,
         ["begin t"; "work in t"; "work in t"; "rollback t"]),
        Throw (TransactionFailed on_purpose)).
Proof.
  assert (Hne : TxnChangeSetImpl._commitTxn lateFailingTxnChangeSet <> [])
    by discriminate.
  repeat (split; [reflexivity|]).
  apply (@failing_txn_loop_rolls_back Log DemoCtx DemoTxn DemoTxn_Txn
           lateFailingTxnChangeSet (demoAccessor plainTxn)
           (demoSource plainTxn) plainTxn [] ["begin t"]
           ["begin t"; "work in t"; "work in t"] on_purpose
           eq_refl eq_refl Hne eq_refl eq_refl eq_refl eq_refl).
Defined.

(** The first entry registers a late one: the loop calls it after the
    entry that was behind the first. *)
Lemma txn_loop_reaches_late_registrations_witness :
  action_fn (workThenDefer lateWork) rootCtx plainTxn ["begin t"]
  = (["begin t"; "work in t"], Normal JUndefined)
  /\ run_live rootCtx plainTxn [workThenDefer lateWork; plain work] ["begin t"]
     = (["begin t"; "work in t"; "work in t"; "late work in t"], Normal tt).
Proof.
  split; [reflexivity|].
  rewrite (proj1 (proj2 (@txn_loop_reaches_late_registrations
                           Log DemoCtx DemoTxn rootCtx plainTxn))
             (workThenDefer lateWork) [plain work] ["begin t"]
             ["begin t"; "work in t"] JUndefined eq_refl).
  reflexivity.
Defined.

Lemma failing_txn_action_rolls_back_witness :
  TxnChangeSetImpl._txnRunner failingTxnChangeSet = txn (demoAccessor plainTxn)
  /\ ChangeSetImpl.done (TxnChangeSetImpl.super failingTxnChangeSet) = false
  /\ TxnChangeSetImpl._commitTxn failingTxnChangeSet <> []
  /\ run_all_txn (withTxn (demoAccessor plainTxn) rootCtx plainTxn) plainTxn
                 (TxnChangeSetImpl._commitTxn failingTxnChangeSet) ["begin t"]
     = (["begin t"; "work in t"], Throw on_purpose)
  /\ TxnChangeSetImpl.commit (failingTxnChangeSet, [])
     = ((TxnChangeSetImpl.committed failingTxnChangeSet false,
         ["begin t"; "work in t"; "rollback t"]),
        Throw (TransactionFailed on_purpose)).
Proof.
  assert (Hne : TxnChangeSetImpl._commitTxn failingTxnChangeSet <> [])
    by discriminate.
  repeat (split; [first [reflexivity | exact Hne]|]).
  apply (@failing_txn_action_rolls_back Log DemoCtx DemoTxn DemoTxn_Txn
           failingTxnChangeSet (demoAccessor plainTxn) (demoSource plainTxn)
           plainTxn [] ["begin t"] ["begin t"; "work in t"] on_purpose
           eq_refl eq_refl Hne eq_refl eq_refl eq_refl eq_refl).
Defined.

Lemma txn_commit_fails_as_run_does_witness :
  TxnChangeSetImpl._txnRunner enclosedTxnChangeSet
  = txn (demoAccessor plainTxn)
  /\ ChangeSetImpl.done (TxnChangeSetImpl.super enclosedTxnChangeSet) = false
  /\ TxnChangeSetImpl._commitTxn enclosedTxnChangeSet <> []
  /\ getTxn (demoAccessor plainTxn) (carrying plainTxn) = Some plainTxn
  /\ asTransactable plainTxn = None
  /\ TxnChangeSetImpl.commit (enclosedTxnChangeSet, [])
     = ((TxnChangeSetImpl.committed enclosedTxnChangeSet false, []),
        Throw NestedTransactionError).
Proof.
  assert (Hne : TxnChangeSetImpl._commitTxn enclosedTxnChangeSet <> [])
    by discriminate.
  repeat (split; [first [reflexivity | exact Hne]|]).
  apply (proj2 (@txn_commit_fails_as_run_does Log DemoCtx DemoTxn DemoTxn_Txn
                  enclosedTxnChangeSet (demoAccessor plainTxn) []
                  eq_refl eq_refl Hne)
               (demoSource plainTxn) plainTxn eq_refl eq_refl eq_refl).
Defined.

(** The test "runs deferFail callbacks" through the runner: the third
    commit action throws, the three undo actions run, and the run throws
    the transaction-failed error. *)
Lemma changeSet_run_commits_deferred_actions_witness :
  getChangeSet slot_value tt None = None
  /\ registers demoCalls
  /\ (let r := run demoChangeSetRunner None
                   (ArgFn (script demoCalls (Normal JUndefined))) None
                   ([], []) in
      (snd (fst r), snd r)
      = (["Pushed a"; "Pushed b";
          "Spliced out a"; "Spliced out b"; "Spliced out c"],
         Throw (TransactionFailed on_purpose))).
Proof.
  assert (Hreg : registers demoCalls) by (repeat constructor).
  split; [reflexivity|]. split; [exact Hreg|].
  exact (proj2 (@changeSet_run_commits_deferred_actions
                  Log SlotCtx unit slot_value slot_withValue tt
                  demoCalls JUndefined None [] [] eq_refl Hreg)).
Defined.

(** The test "does not execute any if rolled back" through the runner. *)
Lemma changeSet_run_undoes_when_callback_throws_witness :
  let calls := [Defer (say "a"); DeferFail (say "failed1");
                DeferFail (say "failed2")] in
  getChangeSet slot_value tt None = None
  /\ registers calls
  /\ (let r := run demoChangeSetRunner None
                   (ArgFn (script calls (Throw on_purpose))) None ([], []) in
      (snd (fst r), snd r)
      = (["failed1"; "failed2"], Throw (TransactionFailed on_purpose))).
Proof.
  cbn zeta.
  assert (Hreg : registers (S:=Log) (Ctx:=SlotCtx)
                   [Defer (say "a"); DeferFail (say "failed1");
                    DeferFail (say "failed2")]) by (repeat constructor).
  split; [reflexivity|]. split; [exact Hreg|].
  exact (proj2 (@changeSet_run_undoes_when_callback_throws
                  Log SlotCtx unit slot_value slot_withValue tt
                  _ on_purpose None [] [] eq_refl Hreg)).
Defined.

(** The test "rejects attempts to commit or rollback multiple times". *)
Lemma changeSet_run_after_own_commit_witness :
  getChangeSet slot_value tt None = None
  /\ registers quietCalls
  /\ chain None (deferred quietCalls) [] ["a"; "b"]
  /\ exists o',
      run demoChangeSetRunner None
          (ArgFn (script (quietCalls ++ [Commit]) (Normal JUndefined)))
          None ([], [])
      = (([o'], ["a"; "b"]), Throw AlreadyCompletedError).
Proof.
  assert (Hreg : registers quietCalls) by (repeat constructor).
  assert (Hchain : chain (S:=Log) None (deferred quietCalls) [] ["a"; "b"]).
  { repeat (eapply chain_cons; [reflexivity|]). apply chain_nil. }
  split; [reflexivity|]. split; [exact Hreg|]. split; [exact Hchain|].
  destruct (@changeSet_run_after_own_commit
              Log SlotCtx unit slot_value slot_withValue tt
              quietCalls JUndefined None [] [] ["a"; "b"]
              eq_refl Hreg Hchain) as (o' & Hrun & _).
  exists o'. exact Hrun.
Defined.

(** The test "rejects nested transaction" of the change set runner. *)
Lemma changeSet_run_rejects_nested_run_witness :
  (forall c r, slot_value (slot_withValue c tt r) tt = Some r)
  /\ getChangeSet slot_value tt None = None
  /\ run demoChangeSetRunner None
         (ArgFn (nested (run demoChangeSetRunner)
                        (script quietCalls (Normal JUndefined))))
         None ([], [])
     = (([ChangeSetImpl.rolledBack (ChangeSetImpl.new Log None)], []),
        Throw (TransactionFailed NestedTransactionError)).
Proof.
  split; [reflexivity|]. split; [reflexivity|].
  exact (@changeSet_run_rejects_nested_run
           Log SlotCtx unit slot_value slot_withValue tt
           (script quietCalls (Normal JUndefined)) None [] []
           (fun c r => eq_refl) eq_refl).
Defined.

(** The test "reuses existing changeSet". *)
Lemma changeSet_in_joins_enclosing_run_witness :
  (forall c r, slot_value (slot_withValue c tt r) tt = Some r)
  /\ getChangeSet slot_value tt None = None
  /\ (let r := in_ demoChangeSetRunner None
                   (ArgFn (nested (in_ demoChangeSetRunner)
                                  (script quietCalls (Normal JUndefined))))
                   None ([], []) in
      r = run demoChangeSetRunner None
              (ArgFn (script quietCalls (Normal JUndefined))) None ([], [])
      /\ (snd (fst r), snd r) = (["a"; "b"], Normal tt)).
Proof.
  split; [reflexivity|]. split; [reflexivity|]. cbn zeta.
  split; [|reflexivity].
  exact (@changeSet_in_joins_enclosing_run
           Log SlotCtx unit slot_value slot_withValue tt
           (script quietCalls (Normal JUndefined)) None [] []
           (fun c r => eq_refl) eq_refl).
Defined.

(** The test "after txn cannot roll back txn" through the runner, with a
    transactional action that registers a second one while it runs: both
    run in the transaction, which is committed; the first commit action
    throws, the second is not called, and the failure action is. *)
Lemma txnChangeSet_run_by_phases_witness :
  pair_value (rootCtx, None) tt = None
  /\ (let r := run (@txnChangeSet Log PairCtx DemoTxn DemoTxn_onPair unit
                      pair_value pair_withValue tt (pairAccessor plainTxn))
                   (rootCtx, None)
                   (ArgFn (registering demoRegistrations (Normal JUndefined)))
                   None ([], []) in
      (snd (fst r), snd r)
      = (["begin t"; "work in t"; "late work in t"; "commit t";
          "Called error callback"],
         Throw (TransactionFailed on_purpose))).
Proof.
  split; [reflexivity|].
  exact (proj2 (@txnChangeSet_run_by_phases
                  Log PairCtx DemoTxn DemoTxn_onPair unit
                  pair_value pair_withValue tt
                  demoRegistrations JUndefined (pairAccessor plainTxn)
                  (rootCtx, None) [] [] eq_refl)).
Defined.
